(** * Amped Up ticket reservations: the request validator and the CSV export

    A shallow embedding of [src/server.js] (the Express application that is
    run) and of the variants of the same application kept in
    [src/models/tickets.js], with the JavaScript operations they rely on
    (truthiness, [String], [Number], [String.prototype.trim],
    [RegExp.prototype.test], [Array.prototype.includes] and [join]).

    JavaScript strings are sequences of UTF-16 code units, numbers are the
    values of IEEE doubles, and a call that can raise an exception returns a
    [Result]. *)

From Stdlib Require Import List NArith ZArith QArith Qround Bool String Ascii Lia.
From Stdlib Require Import Permutation Sorted.
Import ListNotations.

Set Implicit Arguments.
Set Warnings "-register-all".

(** ** Exceptions *)

Inductive Exn : Type :=
| TypeError        (* conversion of an object to a primitive failed, or a call of a non-function *)
| ValidationError  (* a mongoose schema validator rejected a document *)
| MongoError.      (* the database refused or could not be reached *)

Inductive Result (A : Type) : Type :=
| Ok (a : A)
| Throw (e : Exn).

Arguments Ok {A} a.
Arguments Throw {A} e.

Definition bind {A B : Type} (m : Result A) (k : A -> Result B) : Result B :=
  match m with
  | Ok a => k a
  | Throw e => Throw e
  end.

Notation "x <- m ;; k" := (bind m (fun x => k))
  (at level 61, m at next level, right associativity).

(** ** Strings *)

Module JsString.

Local Open Scope N_scope.

(** A string value: its UTF-16 code units. *)
Definition jsstring : Type := list N.

(** The code units of an ASCII literal of the source. *)
Definition str (s : string) : jsstring :=
  map N_of_ascii (list_ascii_of_string s).

Fixpoint eqb (a b : jsstring) : bool :=
  match a, b with
  | [], [] => true
  | x :: a', y :: b' => N.eqb x y && eqb a' b'
  | _, _ => false
  end.

Definition QUOTE : N := 34.   (* the double quote *)
Definition COMMA : N := 44.
Definition DOT : N := 46.
Definition AT : N := 64.
Definition LF : N := 10.

(** WhiteSpace and LineTerminator of ECMAScript: what [\s] matches and what
    [trim] removes. *)
Definition isWhiteSpace (c : N) : bool :=
  ((9 <=? c) && (c <=? 13)) || (c =? 32) || (c =? 160) || (c =? 5760)
  || ((8192 <=? c) && (c <=? 8202)) || (c =? 8232) || (c =? 8233)
  || (c =? 8239) || (c =? 8287) || (c =? 12288) || (c =? 65279).

Fixpoint trimStart (s : jsstring) : jsstring :=
  match s with
  | [] => []
  | c :: s' => if isWhiteSpace c then trimStart s' else s
  end.

Definition trimEnd (s : jsstring) : jsstring := rev (trimStart (rev s)).

(** [String.prototype.trim] *)
Definition trim (s : jsstring) : jsstring := trimEnd (trimStart s).

(** [Array.prototype.join] on an array of strings. *)
Fixpoint join (sep : jsstring) (parts : list jsstring) : jsstring :=
  match parts with
  | [] => []
  | [p] => p
  | p :: rest => p ++ sep ++ join sep rest
  end.

(** The replacement made by [escape]: [replace] with the global pattern that
    matches one double quote and a replacement text of two double quotes. *)
Definition replace_quotes (s : jsstring) : jsstring :=
  flat_map (fun c => if c =? QUOTE then [QUOTE; QUOTE] else [c]) s.

End JsString.
Export JsString.

(** ** Numbers *)

Module JsNumber.

(** A Number value.  A finite double is represented by the rational it
    denotes; comparison of doubles is comparison of these rationals, and the
    two zeros, which no operation used here tells apart, are both [Fin 0]. *)
Inductive JsNum : Type :=
| NaN
| PosInf
| NegInf
| Fin (q : Q).

Definition ofZ (z : Z) : JsNum := Fin (inject_Z z).

(** [a < b] and [a <= b] on numbers: false as soon as an operand is NaN. *)
Definition ltb (a b : JsNum) : bool :=
  match a, b with
  | NaN, _ | _, NaN => false
  | _, NegInf | PosInf, _ => false
  | NegInf, _ | _, PosInf => true
  | Fin x, Fin y => negb (Qle_bool y x)
  end.

Definition leb (a b : JsNum) : bool :=
  match a, b with
  | NaN, _ | _, NaN => false
  | NegInf, _ | _, PosInf => true
  | _, NegInf | PosInf, _ => false
  | Fin x, Fin y => Qle_bool x y
  end.

Definition gtb (a b : JsNum) : bool := ltb b a.
Definition geb (a b : JsNum) : bool := leb b a.

(** [Number.isFinite] on a value that is a number. *)
Definition isFiniteNum (n : JsNum) : bool :=
  match n with
  | Fin _ => true
  | _ => false
  end.

Local Open Scope Z_scope.

(** [10^n] for any integer [n]. *)
Definition pow10 (n : Z) : Q :=
  if 0 <=? n then inject_Z (10 ^ n) else Qinv (inject_Z (10 ^ (- n))).

(** Is [n/d >= 2^k], for positive [n] and [d]. *)
Definition ge_pow2 (n d k : Z) : bool :=
  if 0 <=? k then d * 2 ^ k <=? n else d <=? n * 2 ^ (- k).

(** The double nearest to a rational (ties to even), as StringToNumber
    rounds the mathematical value of a literal: 53 bits of precision, the
    exponent of the last place no lower than -1074, and infinity from
    2^1024 on. *)
Definition round_double (q : Q) : JsNum :=
  let n := Z.abs (Qnum q) in
  let d := Zpos (Qden q) in
  if n =? 0 then Fin 0 else
  let k0 := Z.log2 n - Z.log2 d in
  let k := if ge_pow2 n d k0 then k0 else k0 - 1 in
  let e := Z.max (k - 52) (-1074) in
  let num := if 0 <=? e then n else n * 2 ^ (- e) in
  let den := if 0 <=? e then d * 2 ^ e else d in
  let fl := num / den in
  let r := num mod den in
  let m := if 2 * r <? den then fl
           else if den <? 2 * r then fl + 1
           else if Z.even fl then fl else fl + 1 in
  let v := if 0 <=? e then inject_Z (m * 2 ^ e)
           else Qmake m (Z.to_pos (2 ^ (- e))) in
  if (0 <=? e) && (2 ^ 1024 <=? m * 2 ^ e)
  then (if Qnum q <? 0 then NegInf else PosInf)
  else Fin (Qred (if Qnum q <? 0 then Qopp v else v)).

(** *** StringToNumber *)

Definition isDigit (c : N) : bool := ((48 <=? c) && (c <=? 57))%N.

(** The value of a digit of a hexadecimal, octal or binary literal. *)
Definition digitValue (c : N) : option Z :=
  if ((48 <=? c) && (c <=? 57))%N then Some (Z.of_N (c - 48))
  else if ((97 <=? c) && (c <=? 102))%N then Some (Z.of_N (c - 87))
  else if ((65 <=? c) && (c <=? 70))%N then Some (Z.of_N (c - 55))
  else None.

Fixpoint radixValue (radix : Z) (acc : Z) (s : jsstring) : option Z :=
  match s with
  | [] => Some acc
  | c :: s' =>
      match digitValue c with
      | Some v => if v <? radix then radixValue radix (radix * acc + v) s' else None
      | None => None
      end
  end.

Fixpoint spanDigits (s : jsstring) : jsstring * jsstring :=
  match s with
  | c :: s' => if isDigit c
               then let (ds, rest) := spanDigits s' in (c :: ds, rest)
               else ([], s)
  | [] => ([], [])
  end.

(** NonDecimalIntegerLiteral: 0x, 0o or 0b and at least one digit. *)
Definition nonDecimalLiteral (t : jsstring) : option Z :=
  match t with
  | 48%N :: c :: (_ :: _) as ds =>
      if ((c =? 120) || (c =? 88))%N then radixValue 16 0 ds
      else if ((c =? 111) || (c =? 79))%N then radixValue 8 0 ds
      else if ((c =? 98) || (c =? 66))%N then radixValue 2 0 ds
      else None
  | _ => None
  end.

(** ExponentPart, or nothing: the rest of a decimal literal after its digits. *)
Definition exponentPart (r : jsstring) : option Z :=
  match r with
  | [] => Some 0
  | c :: r' =>
      if ((c =? 101) || (c =? 69))%N then
        let '(neg, ds) := match r' with
                          | 43%N :: ds => (false, ds)
                          | 45%N :: ds => (true, ds)
                          | _ => (false, r')
                          end in
        match ds with
        | [] => None
        | _ => match radixValue 10 0 ds with
               | Some v => Some (if neg then - v else v)
               | None => None
               end
        end
      else None
  end.

(** StrUnsignedDecimalLiteral other than Infinity: digits, an optional
    fraction and an optional exponent, with a digit on one side of the dot at
    least.  The result is the exact mathematical value. *)
Definition unsignedDecimal (u : jsstring) : option Q :=
  let (ip, r1) := spanDigits u in
  let (fp, r2) := match r1 with
                  | 46%N :: r => spanDigits r
                  | _ => ([], r1)
                  end in
  match ip ++ fp with
  | [] => None
  | ds =>
      match radixValue 10 0 ds, exponentPart r2 with
      | Some m, Some e => Some (Qmult (inject_Z m) (pow10 (e - Z.of_nat (List.length fp))))
      | _, _ => None
      end
  end.

(** The conversion of a string to a number: white space around the literal
    is dropped, the empty string is 0, and what is no numeric literal is NaN. *)
Definition StringToNumber (s : jsstring) : JsNum :=
  match trim s with
  | [] => Fin 0
  | t =>
      match nonDecimalLiteral t with
      | Some z => round_double (inject_Z z)
      | None =>
          let '(neg, u) := match t with
                           | 43%N :: u => (false, u)
                           | 45%N :: u => (true, u)
                           | _ => (false, t)
                           end in
          if JsString.eqb u (str "Infinity")
          then (if neg then NegInf else PosInf)
          else match unsignedDecimal u with
               | Some q => round_double (if neg then Qopp q else q)
               | None => NaN
               end
      end
  end.

(** *** Number::toString *)

Fixpoint uintCodes (u : Decimal.uint) : jsstring :=
  match u with
  | Decimal.Nil => []
  | Decimal.D0 u => 48%N :: uintCodes u
  | Decimal.D1 u => 49%N :: uintCodes u
  | Decimal.D2 u => 50%N :: uintCodes u
  | Decimal.D3 u => 51%N :: uintCodes u
  | Decimal.D4 u => 52%N :: uintCodes u
  | Decimal.D5 u => 53%N :: uintCodes u
  | Decimal.D6 u => 54%N :: uintCodes u
  | Decimal.D7 u => 55%N :: uintCodes u
  | Decimal.D8 u => 56%N :: uintCodes u
  | Decimal.D9 u => 57%N :: uintCodes u
  end.

(** The decimal digits of a natural number. *)
Definition decimal (z : Z) : jsstring := uintCodes (N.to_uint (Z.to_N z)).

Definition sameDouble (n : JsNum) (a : Q) : bool :=
  match n with
  | Fin q => Qeq_bool q a
  | _ => false
  end.

(** The exponent [n] with [10^(n-1) <= a < 10^n], for a positive [a]: an
    estimate from the binary logarithms, corrected by at most [fuel] steps. *)
Fixpoint exponentUp (fuel : nat) (a : Q) (n : Z) : Z :=
  match fuel with
  | O => n
  | S f => if Qle_bool (pow10 n) a then exponentUp f a (n + 1) else n
  end.

Fixpoint exponentDown (fuel : nat) (a : Q) (n : Z) : Z :=
  match fuel with
  | O => n
  | S f => if Qle_bool (pow10 (n - 1)) a then n else exponentDown f a (n - 1)
  end.

Definition decimalExponent (a : Q) : Z :=
  let est := ((Z.log2 (Qnum a) - Z.log2 (Zpos (Qden a))) * 30103) / 100000 in
  exponentDown 8 a (exponentUp 8 a est).

(** The shortest digit string [s], of [k] digits, such that [s * 10^(n0-k)]
    reads back as the double [a]; of two such strings the one nearer to [a].
    [k] counts up from its initial value for [fuel] steps; the digits after
    the last step are the nearest ones (17 digits always read back). *)
Fixpoint shortestDigits (fuel : nat) (a : Q) (n0 k : Z) : Z * Z :=
  let scale := pow10 (n0 - k) in
  let x := Qdiv a scale in
  let lo := Qfloor x in
  let hi := lo + 1 in
  let okLo := sameDouble (round_double (Qmult (inject_Z lo) scale)) a in
  let okHi := sameDouble (round_double (Qmult (inject_Z hi) scale)) a in
  let nearLo := Qle_bool (Qminus x (inject_Z lo)) (Qminus (inject_Z hi) x) in
  match fuel with
  | O => (if nearLo then lo else hi, k)
  | S f =>
      if okLo && (negb okHi || nearLo) then (lo, k)
      else if okHi then (hi, k)
      else shortestDigits f a n0 (k + 1)
  end.

(** Number::toString for a positive finite number. *)
Definition positiveToString (a : Q) : jsstring :=
  let n0 := decimalExponent a in
  let '(s0, k) := shortestDigits 16 a n0 1 in
  let '(s, n) := if s0 =? 10 ^ k then (10 ^ (k - 1), n0 + 1) else (s0, n0) in
  let ds := decimal s in
  if (k <=? n) && (n <=? 21) then ds ++ repeat 48%N (Z.to_nat (n - k))
  else if (0 <? n) && (n <=? 21)
       then firstn (Z.to_nat n) ds ++ [DOT] ++ skipn (Z.to_nat n) ds
  else if (-6 <? n) && (n <=? 0)
       then [48%N; DOT] ++ repeat 48%N (Z.to_nat (- n)) ++ ds
  else
    let e := n - 1 in
    let es := (if e <? 0 then 45%N else 43%N) :: decimal (Z.abs e) in
    match ds with
    | [] => []
    | [d] => d :: 101%N :: es
    | d :: more => d :: DOT :: more ++ 101%N :: es
    end.

Definition NumberToString (x : JsNum) : jsstring :=
  match x with
  | NaN => str "NaN"
  | PosInf => str "Infinity"
  | NegInf => str "-Infinity"
  | Fin q =>
      if Qeq_bool q 0 then str "0"
      else if Qle_bool q 0 then 45%N :: positiveToString (Qopp q)
      else positiveToString q
  end.

End JsNumber.
Export JsNumber.

(** ** Values *)

Module Js.

Local Open Scope string_scope.

(** A value as the handlers meet it: what [JSON.parse] builds from a request
    body (an absent property reads as [JUndefined]), and the dates of stored
    documents.  A date carries its time value and the text that [String]
    gives for it, which depends on the time zone of the host. *)
Inductive JsValue : Type :=
| JUndefined
| JNull
| JBool (b : bool)
| JNum (n : JsNum)
| JStr (s : jsstring)
| JArr (elems : list JsValue)
| JObj (props : list (jsstring * JsValue))
| JDate (time : JsNum) (text : jsstring).

(** ToBoolean: the test made by [!v] and by [if (v)]. *)
Definition truthy (v : JsValue) : bool :=
  match v with
  | JUndefined | JNull => false
  | JBool b => b
  | JNum NaN => false
  | JNum (Fin q) => negb (Qeq_bool q 0)
  | JNum _ => true
  | JStr [] => false
  | JStr _ => true
  | JArr _ | JObj _ | JDate _ _ => true
  end.

(** [typeof v === 'string'] *)
Definition isString (v : JsValue) : bool :=
  match v with
  | JStr _ => true
  | _ => false
  end.

(** [v == null]: true of [null] and [undefined] only. *)
Definition isNullish (v : JsValue) : bool :=
  match v with
  | JUndefined | JNull => true
  | _ => false
  end.

(** [v ?? d] *)
Definition nullish (v d : JsValue) : JsValue :=
  if isNullish v then d else v.

Definition hasOwnProperty (props : list (jsstring * JsValue)) (key : jsstring) : bool :=
  existsb (fun p => JsString.eqb (fst p) key) props.

(** ToString.  An array is joined with commas, an element that is [null] or
    [undefined] giving the empty string.  A decoded object inherits
    [Object.prototype.toString] unless it has a property of that name of its
    own; such a property is never callable (JSON has no functions), and then
    neither [toString] nor the inherited [valueOf] yields a primitive: the
    conversion throws a TypeError. *)
Fixpoint ToString (v : JsValue) : Result jsstring :=
  match v with
  | JUndefined => Ok (str "undefined")
  | JNull => Ok (str "null")
  | JBool true => Ok (str "true")
  | JBool false => Ok (str "false")
  | JNum n => Ok (NumberToString n)
  | JStr s => Ok s
  | JArr elems =>
      (fix joinElems (l : list JsValue) : Result jsstring :=
         match l with
         | [] => Ok []
         | x :: rest =>
             a <- (if isNullish x then Ok [] else ToString x) ;;
             match rest with
             | [] => Ok a
             | _ => b <- joinElems rest ;; Ok (a ++ [COMMA] ++ b)%list
             end
         end) elems
  | JObj props =>
      if hasOwnProperty props (str "toString") then Throw TypeError
      else Ok (str "[object Object]")
  | JDate _ text => Ok text
  end.

(** ToNumber, as [Number(v)] applies it.  An array or a decoded object is
    first converted to a primitive with the hint number: their [valueOf]
    returns the object itself, so the primitive is the string of [ToString]
    (or the same TypeError). *)
Definition ToNumber (v : JsValue) : Result JsNum :=
  match v with
  | JUndefined => Ok NaN
  | JNull => Ok (Fin 0)
  | JBool true => Ok (Fin 1)
  | JBool false => Ok (Fin 0)
  | JNum n => Ok n
  | JStr s => Ok (StringToNumber s)
  | JArr _ | JObj _ => s <- ToString v ;; Ok (StringToNumber s)
  | JDate time _ => Ok time
  end.

(** [Number.isFinite(v)]: no conversion, false of what is not a number. *)
Definition Number_isFinite (v : JsValue) : bool :=
  match v with
  | JNum n => isFiniteNum n
  | _ => false
  end.

(** [arr.includes(v)] for an array of strings: SameValueZero, so only a
    string equal to an element is included. *)
Definition includes (arr : list jsstring) (v : JsValue) : bool :=
  match v with
  | JStr s => existsb (JsString.eqb s) arr
  | _ => false
  end.

(** The method call [v.trim()].  Only a string has a callable [trim]; the
    call on anything else throws a TypeError ([undefined] and [null] have no
    properties, and the property is missing or not callable elsewhere). *)
Definition call_trim (v : JsValue) : Result jsstring :=
  match v with
  | JStr s => Ok (trim s)
  | _ => Throw TypeError
  end.

End Js.
Export Js.

(** ** Regular expressions *)

Module RegExp.

(** The patterns the source uses are anchored at both ends and built from
    character classes, concatenation and [+]; [Void], [Eps], [Alt] and [Star]
    are what their derivatives need. *)
Inductive regex : Type :=
| Void
| Eps
| Chr (p : N -> bool)
| Cat (r1 r2 : regex)
| Alt (r1 r2 : regex)
| Star (r : regex).

Definition Plus (r : regex) : regex := Cat r (Star r).

Fixpoint nullable (r : regex) : bool :=
  match r with
  | Void => false
  | Eps => true
  | Chr _ => false
  | Cat r1 r2 => nullable r1 && nullable r2
  | Alt r1 r2 => nullable r1 || nullable r2
  | Star _ => true
  end.

Fixpoint deriv (c : N) (r : regex) : regex :=
  match r with
  | Void => Void
  | Eps => Void
  | Chr p => if p c then Eps else Void
  | Cat r1 r2 =>
      if nullable r1 then Alt (Cat (deriv c r1) r2) (deriv c r2)
      else Cat (deriv c r1) r2
  | Alt r1 r2 => Alt (deriv c r1) (deriv c r2)
  | Star r1 => Cat (deriv c r1) (Star r1)
  end.

(** Does the whole string match: the pattern stands between [^] and [$]. *)
Fixpoint matches (r : regex) (s : jsstring) : bool :=
  match s with
  | [] => nullable r
  | c :: s' => matches (deriv c r) s'
  end.

(** [pattern.test(v)]: the argument is converted to a string first. *)
Definition test (pattern : regex) (v : JsValue) : Result bool :=
  s <- ToString v ;; Ok (matches pattern s).

End RegExp.
Export RegExp.

(** ** src/server.js *)

Module Server.

Local Open Scope string_scope.

Definition allowedTickets : list jsstring :=
  [ str "GA Pass";
    str "GA Pass + Parking";
    str "VIP Pass";
    str "1st Day Ticket";
    str "2nd Day Ticket";
    str "Weekend Parking Pass";
    str "Single Day Parking" ].

(** [req.body], the object that [express.json()] decoded, as line 84
    destructures it; a property the body does not have is [JUndefined]. *)
Record Submission : Type := mkSubmission {
  firstName : JsValue;
  lastName : JsValue;
  email : JsValue;
  ticketType : JsValue;
  quantity : JsValue;
  notes : JsValue
}.

(** The class [[^\s@]]: neither white space nor an at sign. *)
Definition emailChar (c : N) : bool :=
  negb (isWhiteSpace c) && negb (c =? AT)%N.

(** The pattern of line 90: one or more [emailChar], an at sign, one or more
    [emailChar], a dot, one or more [emailChar], between [^] and [$]. *)
Definition emailPattern : regex :=
  Cat (Plus (Chr emailChar))
    (Cat (Chr (N.eqb AT))
       (Cat (Plus (Chr emailChar))
          (Cat (Chr (N.eqb DOT))
             (Plus (Chr emailChar))))).

Definition firstNameMessage : jsstring := str "firstName is required".
Definition lastNameMessage : jsstring := str "lastName is required".
Definition emailMessage : jsstring := str "valid email is required".
Definition ticketTypeMessage : jsstring := str "invalid ticketType".

(** The text of line 97; between the 1 and the 20 stands an en dash, U+2013. *)
Definition quantityMessage : jsstring :=
  (str "quantity must be 1" ++ [8211%N] ++ str "20")%list.

Definition push (errors : list jsstring) (message : jsstring) : list jsstring :=
  (errors ++ [message])%list.

(** [!email || !pattern.test(email)] (line 90): the test is only made of a
    truthy value. *)
Definition emailRejected (email : JsValue) : Result bool :=
  if negb (truthy email) then Ok true
  else t <- test emailPattern email ;; Ok (negb t).

(** [!Number.isFinite(qtyNum) || qtyNum < 1 || qtyNum > 20] (line 96) *)
Definition quantityRejected (qtyNum : JsNum) : bool :=
  negb (isFiniteNum qtyNum) || ltb qtyNum (ofZ 1) || gtb qtyNum (ofZ 20).

(** Lines 86 to 97: the list [errors] and the number [qtyNum]. *)
Definition validate (body : Submission) : Result (list jsstring * JsNum) :=
  let errors := [] in
  let errors := if negb (truthy (firstName body))
                then push errors firstNameMessage else errors in
  let errors := if negb (truthy (lastName body))
                then push errors lastNameMessage else errors in
  badEmail <- emailRejected (email body) ;;
  let errors := if badEmail then push errors emailMessage else errors in
  let errors := if negb (includes allowedTickets (ticketType body))
                then push errors ticketTypeMessage else errors in
  qtyNum <- ToNumber (quantity body) ;;
  let errors := if quantityRejected qtyNum
                then push errors quantityMessage else errors in
  Ok (errors, qtyNum).

(** The argument of [Ticket.create] (lines 105 to 112). *)
Record TicketInput : Type := mkTicketInput {
  in_firstName : jsstring;
  in_lastName : jsstring;
  in_email : jsstring;
  in_ticketType : JsValue;
  in_quantity : JsNum;
  in_notes : jsstring
}.

(** The object literal of lines 105 to 112, its properties evaluated in the
    order they are written. *)
Definition ticketInput (body : Submission) (qtyNum : JsNum) : Result TicketInput :=
  fn <- call_trim (firstName body) ;;
  ln <- call_trim (lastName body) ;;
  em <- call_trim (email body) ;;
  nt <- call_trim (nullish (notes body) (JStr [])) ;;
  Ok (mkTicketInput fn ln em (ticketType body) qtyNum nt).

Section Handlers.

(** The collection behind the model, the identifiers it assigns, and
    [Ticket.create]: it either resolves to the identifier of the saved
    document or rejects, and leaves the collection in some state. *)
Variable Store : Type.
Variable ObjectId : Type.
Variable Ticket_create : TicketInput -> Store -> Result ObjectId * Store.

Inductive ResponseBody : Type :=
| Health (ok mongo : bool)                                (* { ok, mongo } *)
| ValidationFailed (message : jsstring) (errors : list jsstring)  (* { message, errors } *)
| Saved (message : jsstring) (id : ObjectId)              (* { message, id } *)
| Message (message : jsstring).                           (* { message } *)

Record Response : Type := mkResponse {
  status : N;
  body : ResponseBody
}.

(** [res.json(b)] answers with status 200 unless [res.status] was called. *)
Definition res_json (b : ResponseBody) : Response := mkResponse 200 b.

(** Lines 77 to 79.  [readyState] is that of [mongoose.connection]: 1 when
    connected. *)
Definition get_api_health (readyState : N) (db : Store) : Response * Store :=
  (res_json (Health true (readyState =? 1)%N), db).

(** Lines 82 to 119: the body of the [try], and the [catch] around it. *)
Definition post_api_tickets_try (body : Submission) (db : Store)
  : Result Response * Store :=
  match validate body with
  | Throw e => (Throw e, db)
  | Ok (errors, qtyNum) =>
      match errors with
      | _ :: _ =>
          (Ok (mkResponse 400 (ValidationFailed (str "Validation failed") errors)), db)
      | [] =>
          match ticketInput body qtyNum with
          | Throw e => (Throw e, db)
          | Ok input =>
              match Ticket_create input db with
              | (Ok id, db') => (Ok (mkResponse 201 (Saved (str "Saved") id)), db')
              | (Throw e, db') => (Throw e, db')
              end
          end
      end
  end.

Definition post_api_tickets (body : Submission) (db : Store) : Response * Store :=
  match post_api_tickets_try body db with
  | (Ok response, db') => (response, db')
  | (Throw _, db') => (mkResponse 500 (Message (str "Error saving ticket")), db')
  end.

End Handlers.

(** *** The model (lines 56 to 74)

    What mongoose does with the options that [ticketSchema] uses.  When a
    document is built, the setters of a string path run last declared first
    (an empty string is left alone); when it is saved, the validators run
    and one failure rejects the save with a ValidationError. *)

Record StringPath : Type := mkStringPath {
  required : bool;
  opt_trim : bool;
  opt_lowercase : bool;
  maxlength : option nat;
  enum : option (list jsstring)
}.

Record NumberPath : Type := mkNumberPath {
  num_required : bool;
  min : option Z;
  max : option Z
}.

Record Schema : Type := mkSchema {
  path_firstName : StringPath;
  path_lastName : StringPath;
  path_email : StringPath;
  path_ticketType : StringPath;
  path_quantity : NumberPath;
  path_notes : StringPath
}.

Definition ticketSchema : Schema := {|
  path_firstName := mkStringPath true true false (Some 80%nat) None;
  path_lastName := mkStringPath true true false (Some 80%nat) None;
  path_email := mkStringPath true true true (Some 160%nat) None;
  path_ticketType := mkStringPath true false false None (Some allowedTickets);
  path_quantity := mkNumberPath true (Some 1%Z) (Some 20%Z);
  path_notes := mkStringPath false true false (Some 1000%nat) None
|}.

Section Model.

(** [String.prototype.toLowerCase], which follows the case mappings of
    Unicode, and the insertion of a document into the collection. *)
Variable toLowerCase : jsstring -> jsstring.
Variable Store : Type.
Variable ObjectId : Type.
Variable insertOne : TicketInput -> Store -> Result ObjectId * Store.

Definition applySetters (p : StringPath) (v : jsstring) : jsstring :=
  let v := if opt_lowercase p
           then match v with [] => [] | _ => toLowerCase v end
           else v in
  if opt_trim p then trim v else v.

Definition validString (p : StringPath) (v : jsstring) : bool :=
  (if required p then negb (JsString.eqb v []) else true)
  && match maxlength p with
     | Some m => (List.length v <=? m)%nat
     | None => true
     end
  && match enum p with
     | Some values => existsb (JsString.eqb v) values
     | None => true
     end.

Definition validNumber (p : NumberPath) (n : JsNum) : bool :=
  match min p with
  | Some m => geb n (ofZ m)
  | None => true
  end
  && match max p with
     | Some m => leb n (ofZ m)
     | None => true
     end.

(** The document that [new Ticket(input)] holds, or the rejection of its
    validation. *)
Definition castTicket (s : Schema) (input : TicketInput) : Result TicketInput :=
  match in_ticketType input with
  | JStr ticketType =>
      let doc :=
        mkTicketInput
          (applySetters (path_firstName s) (in_firstName input))
          (applySetters (path_lastName s) (in_lastName input))
          (applySetters (path_email s) (in_email input))
          (JStr (applySetters (path_ticketType s) ticketType))
          (in_quantity input)
          (applySetters (path_notes s) (in_notes input)) in
      if validString (path_firstName s) (in_firstName doc)
         && validString (path_lastName s) (in_lastName doc)
         && validString (path_email s) (in_email doc)
         && validString (path_ticketType s) (applySetters (path_ticketType s) ticketType)
         && validNumber (path_quantity s) (in_quantity doc)
         && validString (path_notes s) (in_notes doc)
      then Ok doc
      else Throw ValidationError
  | _ => Throw ValidationError
  end.

(** [Ticket.create(input)] *)
Definition Ticket_create (input : TicketInput) (db : Store) : Result ObjectId * Store :=
  match castTicket ticketSchema input with
  | Ok doc => insertOne doc db
  | Throw e => (Throw e, db)
  end.

End Model.

End Server.

(** ** src/models/tickets.js

    The file holds three texts one after the other: a first schema, a
    variant of server.js with stricter checks (lines 14 to 136), and a
    variant with the CSV export, an email helper and, inside its first
    handler, a second handler with checks of its own (lines 137 to 383).
    The statements are taken as they are written. *)

Module Tickets.

Import Server.

Local Open Scope string_scope.

(** Lines 57 to 65 (and 180 to 188). *)
Definition allowedTickets : list jsstring :=
  [ str "GA Pass";
    str "GA Pass + Parking";
    str "VIP Pass";
    str "1st Day Ticket";
    str "2nd Day Ticket";
    str "Weekend Parking Pass";
    str "Single Day Parking" ].

(** The text of line 98: where server.js has an en dash, this file has the
    three characters U+00E2, U+20AC and U+201C. *)
Definition quantityMessage : jsstring :=
  (str "quantity must be 1" ++ [226%N; 8364%N; 8220%N] ++ str "20")%list.

(** [!email || typeof email !== 'string' || !pattern.test(email)] (line 96) *)
Definition emailRejected (email : JsValue) : Result bool :=
  if negb (truthy email) then Ok true
  else if negb (isString email) then Ok true
  else t <- test emailPattern email ;; Ok (negb t).

(** [Number.isFinite(quantity) && quantity >= 1 && quantity <= 20] (line 98):
    the comparisons are only made of a finite number. *)
Definition quantityAccepted (quantity : JsValue) : Result bool :=
  if Number_isFinite quantity
  then n <- ToNumber quantity ;; Ok (geb n (ofZ 1) && leb n (ofZ 20))
  else Ok false.

(** Lines 93 to 98: the first variant of the validator. *)
Definition validate (body : Submission) : Result (list jsstring) :=
  let errors := [] in
  let errors := if negb (truthy (firstName body)) || negb (isString (firstName body))
                then push errors firstNameMessage else errors in
  let errors := if negb (truthy (lastName body)) || negb (isString (lastName body))
                then push errors lastNameMessage else errors in
  badEmail <- emailRejected (email body) ;;
  let errors := if badEmail then push errors emailMessage else errors in
  let errors := if negb (truthy (ticketType body))
                   || negb (includes allowedTickets (ticketType body))
                then push errors ticketTypeMessage else errors in
  okQuantity <- quantityAccepted (quantity body) ;;
  let errors := if negb okQuantity then push errors quantityMessage else errors in
  Ok errors.

(** [!v || !v.trim()] (lines 231 to 233) *)
Definition blank (v : JsValue) : Result bool :=
  if negb (truthy v) then Ok true
  else t <- call_trim v ;; Ok (negb (truthy (JStr t))).

(** Lines 230 to 235: the validator of the handler that sends the emails. *)
Definition validateNested (body : Submission) : Result (list jsstring) :=
  let errors := [] in
  b <- blank (firstName body) ;;
  let errors := if b then push errors (str "First name is required.") else errors in
  b <- blank (lastName body) ;;
  let errors := if b then push errors (str "Last name is required.") else errors in
  b <- blank (email body) ;;
  let errors := if b then push errors (str "Email is required.") else errors in
  let errors := if negb (truthy (ticketType body))
                then push errors (str "Ticket type is required.") else errors in
  tooFew <- (if negb (truthy (quantity body)) then Ok true
             else n <- ToNumber (quantity body) ;; Ok (ltb n (ofZ 1))) ;;
  let errors := if tooFew then push errors (str "Quantity must be at least 1.") else errors in
  Ok errors.

(** *** The CSV export (lines 280 to 324) *)

(** A field of a document read back with [lean()], typed as the schema of
    lines 190 to 198 stores it: a string, a number or a date, or nothing
    when the document has no such property or holds [null] there. *)
Inductive Field : Type :=
| Missing
| Text (s : jsstring)
| Num (n : JsNum)
| Date (time : JsNum) (text : jsstring).

Definition fieldValue (f : Field) : JsValue :=
  match f with
  | Missing => JUndefined
  | Text s => JStr s
  | Num n => JNum n
  | Date time text => JDate time text
  end.

Record TicketDoc : Type := mkTicketDoc {
  createdAt : Field;
  doc_firstName : Field;
  doc_lastName : Field;
  doc_email : Field;
  doc_ticketType : Field;
  doc_quantity : Field;
  doc_notes : Field
}.

Definition header : list jsstring :=
  [ str "createdAt"; str "firstName"; str "lastName"; str "email";
    str "ticketType"; str "quantity"; str "notes" ].

(** Lines 294 to 298. *)
Definition escape (value : JsValue) : Result jsstring :=
  if isNullish value then Ok []
  else s <- ToString value ;;
       Ok ([QUOTE] ++ replace_quotes s ++ [QUOTE])%list.

(** [xs.map(f)] for an [f] that may throw. *)
Fixpoint mapR {A B : Type} (f : A -> Result B) (xs : list A) : Result (list B) :=
  match xs with
  | [] => Ok []
  | x :: rest => y <- f x ;; ys <- mapR f rest ;; Ok (y :: ys)
  end.

(** Lines 300 to 308: the cells of one document. *)
Definition row (t : TicketDoc) : Result (list jsstring) :=
  mapR escape
    (map fieldValue
       [ createdAt t; doc_firstName t; doc_lastName t; doc_email t;
         doc_ticketType t; doc_quantity t; doc_notes t ]).

(** Lines 300 to 315: [rows], [csvLines] and [csv]. *)
Definition csv (docs : list TicketDoc) : Result jsstring :=
  rows <- mapR row docs ;;
  let csvLines := join [COMMA] header :: map (join [COMMA]) rows in
  Ok (join [LF] csvLines).

End Tickets.


(** ** The queries of both files *)

Module Query.

Import Tickets.

Section Sorting.

(** The order that [sort({ createdAt: -1 })] puts on the values of
    [createdAt]: [newerFirst a b] when a document with [a] may stand before
    one with [b]. *)
Variable newerFirst : Field -> Field -> bool.

Fixpoint insert (t : TicketDoc) (sorted : list TicketDoc) : list TicketDoc :=
  match sorted with
  | [] => [t]
  | u :: rest =>
      if newerFirst (createdAt t) (createdAt u) then t :: sorted
      else u :: insert t rest
  end.

(** [find().sort({ createdAt: -1 })] on the documents of the collection. *)
Fixpoint sortNewestFirst (docs : list TicketDoc) : list TicketDoc :=
  match docs with
  | [] => []
  | t :: rest => insert t (sortNewestFirst rest)
  end.

(** [.limit(50)] after the sort. *)
Definition recent (docs : list TicketDoc) : list TicketDoc :=
  firstn 50 (sortNewestFirst docs).

End Sorting.

End Query.

(** ** The rest of src/server.js *)

Module ServerRest.

Import Tickets.

(** [s.split(sep)] for a separator of one code unit: the pieces between the
    separators, one more than there are separators. *)
Fixpoint split (sep : N) (s : jsstring) : list jsstring :=
  match s with
  | [] => [[]]
  | c :: s' =>
      if (c =? sep)%N then [] :: split sep s'
      else match split sep s' with
           | piece :: pieces => (c :: piece) :: pieces
           | [] => [[c]]
           end
  end.

(** The [origin] option of [cors] (lines 20 and 21): [true] when the
    variable is not set. *)
Inductive CorsOrigin : Type :=
| AnyOrigin
| Origins (origins : list jsstring).

(** [process.env.CORS_ORIGINS?.split(',').map((s) => s.trim()) || true]: a
    variable of the environment is a string or is not set, and an array is
    truthy whatever it holds. *)
Definition corsOrigin (CORS_ORIGINS : option jsstring) : CorsOrigin :=
  match CORS_ORIGINS with
  | None => AnyOrigin
  | Some s => Origins (map trim (split COMMA s))
  end.

Section List.

Variable Store : Type.
Variable newerFirst : Field -> Field -> bool.

(** The documents of the collection as the driver reads them, or its
    failure. *)
Variable Ticket_find : Store -> Result (list TicketDoc).

Inductive ListBody : Type :=
| Docs (docs : list TicketDoc)          (* the array of documents *)
| ListFailed (message : jsstring).      (* { message } *)

Record ListResponse : Type := mkListResponse {
  list_status : N;
  list_body : ListBody
}.

(** Lines 122 to 133. *)
Definition get_api_tickets (db : Store) : ListResponse :=
  match Ticket_find db with
  | Ok docs => mkListResponse 200 (Docs (Query.recent newerFirst docs))
  | Throw _ => mkListResponse 500 (ListFailed (str "Error fetching tickets"))
  end.

End List.

End ServerRest.

(** ** The rest of src/models/tickets.js *)

Module TicketsRest.

Import Server.
Import Tickets.

(** The object literal of lines 102 to 109 (and 242 to 249): as in
    server.js, but the quantity is converted here. *)
Definition ticketInput (body : Submission) : Result TicketInput :=
  fn <- call_trim (firstName body) ;;
  ln <- call_trim (lastName body) ;;
  em <- call_trim (email body) ;;
  qty <- ToNumber (quantity body) ;;
  nt <- call_trim (nullish (notes body) (JStr [])) ;;
  Ok (mkTicketInput fn ln em (ticketType body) qty nt).

Section StrictHandler.

Variable Store : Type.
Variable ObjectId : Type.
Variable Ticket_create : TicketInput -> Store -> Result ObjectId * Store.

(** Lines 88 to 116: the body of the [try], and the [catch] around it. *)
Definition post_api_tickets_try (body : Submission) (db : Store)
  : Result (Response ObjectId) * Store :=
  match Tickets.validate body with
  | Throw e => (Throw e, db)
  | Ok ((_ :: _) as errors) =>
      (Ok (mkResponse 400 (ValidationFailed ObjectId (str "Validation failed") errors)), db)
  | Ok [] =>
      match ticketInput body with
      | Throw e => (Throw e, db)
      | Ok input =>
          match Ticket_create input db with
          | (Ok id, db') => (Ok (mkResponse 201 (Saved (str "Saved") id)), db')
          | (Throw e, db') => (Throw e, db')
          end
      end
  end.

Definition post_api_tickets (body : Submission) (db : Store)
  : Response ObjectId * Store :=
  match post_api_tickets_try body db with
  | (Ok response, db') => (response, db')
  | (Throw _, db') => (mkResponse 500 (Message ObjectId (str "Error saving ticket")), db')
  end.

End StrictHandler.

(** *** The emails (lines 337 to 383) *)

Record Mail : Type := mkMail {
  mail_from : jsstring;
  mail_to : JsValue;
  mail_subject : jsstring;
  mail_text : jsstring
}.

(** The three characters that stand in this file where a dash was meant,
    U+00E2 U+20AC U+201C, those for an apostrophe, and those after the
    subject of the guest's mail. *)
Definition DASH : jsstring := [226; 8364; 8220]%N.
Definition APOSTROPHE : jsstring := [226; 8364; 8482]%N.
Definition SPARKLES : jsstring := [226; 339; 168]%N.

(** [process.env.NAME || fallback] *)
Definition envOr (variable : option jsstring) (fallback : jsstring) : jsstring :=
  match variable with
  | Some (c :: s) => c :: s
  | _ => fallback
  end.

(** [v || fallback] *)
Definition orElse (v fallback : JsValue) : JsValue :=
  if truthy v then v else fallback.

(** A property of the document in a template literal. *)
Definition show (f : Field) : Result jsstring := ToString (fieldValue f).

(** Lines 342 to 349. *)
Definition summary (ticket : TicketDoc) : Result jsstring :=
  fn <- show (doc_firstName ticket) ;;
  ln <- show (doc_lastName ticket) ;;
  em <- show (doc_email ticket) ;;
  tt <- show (doc_ticketType ticket) ;;
  qty <- show (doc_quantity ticket) ;;
  nt <- ToString (orElse (fieldValue (doc_notes ticket)) (JStr (str "(none)"))) ;;
  at_ <- show (createdAt ticket) ;;
  Ok (trim ([LF] ++ str "Name: " ++ fn ++ str " " ++ ln ++ [LF]
            ++ str "Email: " ++ em ++ [LF]
            ++ str "Ticket Type: " ++ tt ++ [LF]
            ++ str "Quantity: " ++ qty ++ [LF]
            ++ str "Notes: " ++ nt ++ [LF]
            ++ str "Created At: " ++ at_ ++ [LF] ++ str "  ")%list).

(** Lines 356 to 366, around the summary. *)
Definition greeting (firstName : jsstring) : jsstring :=
  (str "Hey " ++ firstName ++ str "," ++ [LF; LF]
   ++ str "Thanks for reserving tickets for Amped Up 26!" ++ [LF; LF]
   ++ str "Here" ++ APOSTROPHE ++ str "s your reservation summary:" ++ [LF])%list.

Definition closing : jsstring :=
  ([LF; LF]
   ++ str "This site is a project demo, so no payment has been collected yet." ++ [LF]
   ++ str "If you have questions, just reply to this email." ++ [LF; LF]
   ++ DASH ++ str " Amped Up 26 Team")%list.

(** Lines 352 to 367. *)
Definition userMail (from : jsstring) (ticket : TicketDoc) (summary : jsstring)
  : Result Mail :=
  fn <- show (doc_firstName ticket) ;;
  Ok (mkMail from (fieldValue (doc_email ticket))
        (str "Your Amped Up 26 Ticket Reservation " ++ SPARKLES)%list
        (greeting fn ++ summary ++ closing)%list).

(** Lines 370 to 377: [null] when no address is configured. *)
Definition adminMail (from : jsstring) (adminEmail : option jsstring)
           (ticket : TicketDoc) (summary : jsstring) : Result (option Mail) :=
  match adminEmail with
  | Some (c :: s) =>
      fn <- show (doc_firstName ticket) ;;
      ln <- show (doc_lastName ticket) ;;
      Ok (Some (mkMail from (JStr (c :: s))
                  (str "NEW Ticket Reservation " ++ DASH ++ str " " ++ fn
                   ++ str " " ++ ln)%list
                  summary))
  | _ => Ok None
  end.

Section Emails.

(** What the mails go to, and [transporter.sendMail], which the file uses
    and does not declare. *)
Variable World : Type.
Variable sendMail : Mail -> World -> Result unit * World.

(** Lines 337 to 383.  The subject of line 341 is built and not used. *)
Definition sendTicketEmails (TICKETS_FROM ADMIN_EMAIL : option jsstring)
           (ticket : TicketDoc) (w : World) : Result unit * World :=
  let from := envOr TICKETS_FROM (str "tickets@example.com") in
  match (fn <- show (doc_firstName ticket) ;;
         ln <- show (doc_lastName ticket) ;;
         text <- summary ticket ;;
         guest <- userMail from ticket text ;;
         admin <- adminMail from ADMIN_EMAIL ticket text ;;
         Ok (guest, admin)) with
  | Throw e => (Throw e, w)
  | Ok (guest, admin) =>
      match sendMail guest w with
      | (Throw e, w') => (Throw e, w')
      | (Ok _, w') =>
          match admin with
          | Some mail => sendMail mail w'
          | None => (Ok tt, w')
          end
      end
  end.

End Emails.

(** *** The handler that sends the emails (lines 225 to 266) *)

Section NestedHandler.

Variable Store : Type.
Variable ObjectId : Type.
Variable World : Type.
Variable sendMail : Mail -> World -> Result unit * World.
Variable TICKETS_FROM ADMIN_EMAIL : option jsstring.

(** [Ticket.create] resolves to the document it saved. *)
Variable Ticket_create :
  TicketInput -> Store -> Result (ObjectId * TicketDoc) * Store.

Definition post_nested_try (body : Submission) (db : Store) (w : World)
  : Result (Response ObjectId) * Store * World :=
  match validateNested body with
  | Throw e => (Throw e, db, w)
  | Ok ((_ :: _) as errors) =>
      (Ok (mkResponse 400 (ValidationFailed ObjectId (str "Validation failed") errors)),
       db, w)
  | Ok [] =>
      match ticketInput body with
      | Throw e => (Throw e, db, w)
      | Ok input =>
          match Ticket_create input db with
          | (Throw e, db') => (Throw e, db', w)
          | (Ok (id, ticket), db') =>
              (* the promise of the emails is not awaited, and its
                 rejection is caught and logged *)
              let w' := snd (sendTicketEmails sendMail TICKETS_FROM ADMIN_EMAIL ticket w) in
              (Ok (mkResponse 201 (Saved (str "Saved") id)), db', w')
          end
      end
  end.

Definition post_nested (body : Submission) (db : Store) (w : World)
  : Response ObjectId * Store * World :=
  match post_nested_try body db w with
  | (Ok response, db', w') => (response, db', w')
  | (Throw _, db', w') =>
      (mkResponse 500 (Message ObjectId (str "Error saving ticket")), db', w')
  end.

End NestedHandler.

(** *** The handler of the export (lines 280 to 324) *)

Section ExportHandler.

Variable Store : Type.
Variable newerFirst : Field -> Field -> bool.
Variable Ticket_find : Store -> Result (list TicketDoc).

Inductive ExportResponse : Type :=
| CsvFile (contentType contentDisposition : jsstring) (text : jsstring)
| ExportFailed (message : jsstring).

(** The value of the second header: the name between double quotes. *)
Definition attachment : jsstring :=
  (str "attachment; filename=" ++ [QUOTE] ++ str "tickets.csv" ++ [QUOTE])%list.

Definition get_api_tickets_export (db : Store) : N * ExportResponse :=
  match (docs <- Ticket_find db ;;
         csv (Query.sortNewestFirst newerFirst docs)) with
  | Ok text => (200%N, CsvFile (str "text/csv") attachment text)
  | Throw _ => (500%N, ExportFailed (str "Error exporting tickets"))
  end.

End ExportHandler.

End TicketsRest.

(** * The vocabulary of the properties *)

Unset Implicit Arguments.

Import Server.

(** ** Patterns and emails *)

(** The words of a pattern. *)
Inductive lang : regex -> jsstring -> Prop :=
| lang_Eps : lang Eps []
| lang_Chr p c : p c = true -> lang (Chr p) [c]
| lang_Cat r1 r2 s1 s2 : lang r1 s1 -> lang r2 s2 -> lang (Cat r1 r2) (s1 ++ s2)
| lang_AltL r1 r2 s : lang r1 s -> lang (Alt r1 r2) s
| lang_AltR r1 r2 s : lang r2 s -> lang (Alt r1 r2) s
| lang_Star0 r : lang (Star r) []
| lang_StarS r s1 s2 : lang r s1 -> lang (Star r) s2 -> lang (Star r) (s1 ++ s2).

#[local] Hint Constructors lang : core.

Ltac inv H := inversion H; subst; clear H.

(** Splits an equation [s1 ++ s2 = []] or [s1 ++ s2 = c :: s] left by an
    inversion of [lang] according to whether [s1] is empty. *)
Ltac split_word :=
  match goal with
  | E : ?s1 ++ ?s2 = [] |- _ => apply app_eq_nil in E as [-> ->]
  | E : [] = ?s1 ++ ?s2 |- _ => symmetry in E; apply app_eq_nil in E as [-> ->]
  | E : ?s1 ++ ?s2 = _ :: _ |- _ =>
      destruct s1; simpl in E; [subst | injection E as -> <-]
  | E : _ :: _ = ?s1 ++ ?s2 |- _ =>
      destruct s1; simpl in E; [subst | injection E as <- ->]
  end.

(** What the pattern of line 90 accepts, without the pattern: a local part,
    an at sign, and a domain made of two non-empty parts around a dot, all
    three parts free of white space and of at signs. *)
Definition emailShape (s : jsstring) : Prop :=
  exists l d1 d2,
    s = l ++ AT :: d1 ++ DOT :: d2
    /\ l <> [] /\ d1 <> [] /\ d2 <> []
    /\ forallb Server.emailChar l = true
    /\ forallb Server.emailChar d1 = true
    /\ forallb Server.emailChar d2 = true.

(** The shape as the specification words it: exactly one at sign, with a
    non-empty run of characters without white space on each side of it, and
    a dot somewhere in the part after it. *)
Definition claimedEmailShape (s : jsstring) : Prop :=
  exists l d,
    s = l ++ AT :: d
    /\ count_occ N.eq_dec s AT = 1%nat
    /\ l <> [] /\ d <> []
    /\ forallb (fun c => negb (isWhiteSpace c)) (l ++ d) = true
    /\ In DOT d.

(** ** Submissions *)

(** A submission whose other fields pass, around the quantity [v]. *)
Definition withQuantity (v : JsValue) : Server.Submission :=
  Server.mkSubmission (JStr (str "Ann")) (JStr (str "Lee")) (JStr (str "a@b.co"))
    (JStr (str "GA Pass")) v JUndefined.

(** The validator reports no error for the quantity [v] of an otherwise
    valid submission. *)
Definition acceptsQuantity (v : JsValue) : Prop :=
  exists n, Server.validate (withQuantity v) = Ok ([], n).

(** ** Checks and reports *)

(** The messages of the checks that failed, in the order of the checks. *)
Definition reported (checks : list (bool * jsstring)) : list jsstring :=
  map snd (filter fst checks).

(** The five checks of server.js in the order of the fields, each with its
    message; [badEmail] and [qtyNum] are the outcomes of the two checks that
    convert their field. *)
Definition checks (body : Submission) (badEmail : bool) (qtyNum : JsNum)
  : list (bool * jsstring) :=
  [ (negb (truthy (firstName body)), firstNameMessage);
    (negb (truthy (lastName body)), lastNameMessage);
    (badEmail, emailMessage);
    (negb (includes Server.allowedTickets (ticketType body)), ticketTypeMessage);
    (quantityRejected qtyNum, Server.quantityMessage) ].

(** The reports keep the order of the fields: they are the five messages
    with those of the passed checks struck out. *)
Inductive subsequence {A : Type} : list A -> list A -> Prop :=
| sub_nil : subsequence [] []
| sub_keep x xs ys : subsequence xs ys -> subsequence (x :: xs) (x :: ys)
| sub_drop y xs ys : subsequence xs ys -> subsequence xs (y :: ys).

(** The five messages in the order of the fields. *)
Definition allMessages : list jsstring :=
  [ firstNameMessage; lastNameMessage; emailMessage; ticketTypeMessage;
    Server.quantityMessage ].

(** What the handler answers once [Ticket.create] has settled. *)
Definition answerOf {Store ObjectId : Type} (r : Result ObjectId * Store)
  : Response ObjectId * Store :=
  match r with
  | (Ok id, db) => (mkResponse 201 (Saved (str "Saved") id), db)
  | (Throw _, db) => (mkResponse 500 (Message ObjectId (str "Error saving ticket")), db)
  end.

(** The text of the notes that are a string, and the empty text of those
    that are missing. *)
Definition notesText (notes : JsValue) : jsstring :=
  match notes with
  | JStr s => s
  | _ => []
  end.

(** Spaces around the first name, capitals in the email, the quantity sent
    as a string, no notes. *)
Definition paddedSubmission : Submission :=
  mkSubmission (JStr (str " Ann ")) (JStr (str "Lee")) (JStr (str "A@B.CO"))
    (JStr (str "VIP Pass")) (JStr (str "2")) JUndefined.

(** Lower case for the letters A to Z, the other code units unchanged: what
    [toLowerCase] does on ASCII text. *)
Definition asciiLowerCase (s : jsstring) : jsstring :=
  map (fun c => if ((65 <=? c) && (c <=? 90))%N then (c + 32)%N else c) s.

(** A body without any of the fields. *)
Definition emptySubmission : Submission :=
  mkSubmission JUndefined JUndefined JUndefined JUndefined JUndefined JUndefined.

(** A collection that is the list of what was inserted, the identifier of a
    document being its position: a [Ticket.create] that always succeeds and
    always writes. *)
Definition recordingCreate (input : TicketInput) (db : list TicketInput)
  : Result nat * list TicketInput :=
  (Ok (List.length db), db ++ [input]).

(** The JSON value whose one property is [toString], with the value 1:
    [String] and [Number] throw a TypeError on it. *)
Definition unconvertible : JsValue := JObj [(str "toString", JNum (ofZ 1))].

(** No first name, and a quantity of one and a half. *)
Definition noNameFractionalQuantity : Submission :=
  mkSubmission JUndefined (JStr (str "Lee")) (JStr (str "a@b.co"))
    (JStr (str "GA Pass")) (JNum (Fin 1.5)) JUndefined.

(** No first name, and a quantity that cannot be converted. *)
Definition noNameBadQuantity : Submission :=
  mkSubmission JUndefined (JStr (str "Lee")) (JStr (str "a@b.co"))
    (JStr (str "GA Pass")) unconvertible JUndefined.


(** A first name of three spaces. *)
Definition blankName : Submission :=
  mkSubmission (JStr (str "   ")) (JStr (str "Lee")) (JStr (str "a@b.co"))
    (JStr (str "GA Pass")) (JNum (ofZ 2)) JUndefined.

(** The checks of tickets.js without their conversions, which never happen:
    the pattern is only tried on a string and the comparisons only on a
    finite number. *)
Definition strictEmailBad (v : JsValue) : bool :=
  match v with
  | JStr s => negb (matches emailPattern s)
  | _ => true
  end.

(** The quantity is a finite number between 1 and 20. *)
Definition strictQuantityOk (v : JsValue) : bool :=
  match v with
  | JNum (Fin q) => Qle_bool 1 q && Qle_bool q 20
  | _ => false
  end.

(** The five checks of tickets.js, each with its message. *)
Definition strictChecks (body : Submission) : list (bool * jsstring) :=
  [ (negb (truthy (firstName body)) || negb (isString (firstName body)), firstNameMessage);
    (negb (truthy (lastName body)) || negb (isString (lastName body)), lastNameMessage);
    (strictEmailBad (email body), emailMessage);
    (negb (truthy (ticketType body))
     || negb (includes Tickets.allowedTickets (ticketType body)), ticketTypeMessage);
    (negb (strictQuantityOk (quantity body)), Tickets.quantityMessage) ].

(** Of a value that is a string or missing, and of a quantity that is a
    number or missing, the two validators make the same checks. *)
Definition stringOrMissing (v : JsValue) : bool := isString v || isNullish v.



(** ** The cells and lines of the export *)

(** A text between double quotes, its own double quotes doubled. *)
Definition quoted (s : jsstring) : jsstring :=
  QUOTE :: replace_quotes s ++ [QUOTE].

(** The cell of a field: nothing at all for a missing one. *)
Definition cell (f : Tickets.Field) : jsstring :=
  match f with
  | Tickets.Missing => []
  | Tickets.Text s => quoted s
  | Tickets.Num n => quoted (NumberToString n)
  | Tickets.Date _ text => quoted text
  end.

(** The line of a document: its seven cells in the order of the header. *)
Definition line (t : Tickets.TicketDoc) : jsstring :=
  join [COMMA]
    (map cell
       [ Tickets.createdAt t; Tickets.doc_firstName t; Tickets.doc_lastName t;
         Tickets.doc_email t; Tickets.doc_ticketType t; Tickets.doc_quantity t;
         Tickets.doc_notes t ]).

(** The first line: the names of [header] joined by commas. *)
Definition headerLine : jsstring := join [COMMA] Tickets.header.

(** How a reader of CSV takes a quoted cell apart: two double quotes stand
    for one, a single one inside the cell is an error. *)
Fixpoint undouble (s : jsstring) : option jsstring :=
  match s with
  | [] => Some []
  | c :: s' =>
      if (c =? QUOTE)%N then
        match s' with
        | c' :: s'' =>
            if (c' =? QUOTE)%N then option_map (cons QUOTE) (undouble s'') else None
        | [] => None
        end
      else option_map (cons c) (undouble s')
  end.

(** A quoted cell without its two outer quotes, read with [undouble]. *)
Definition unquote (s : jsstring) : option jsstring :=
  match s with
  | q :: rest =>
      match rev rest with
      | q' :: inner => if ((q =? QUOTE) && (q' =? QUOTE))%N
                       then undouble (rev inner) else None
      | [] => None
      end
  | [] => None
  end.

(** [He said "hi"], the example of the specification, and its cell. *)
Definition heSaidHi : jsstring :=
  str "He said " ++ [QUOTE] ++ str "hi" ++ [QUOTE].

Definition heSaidHiCell : jsstring :=
  [QUOTE] ++ str "He said " ++ [QUOTE; QUOTE] ++ str "hi" ++ [QUOTE; QUOTE] ++ [QUOTE].

(** ** Trimmed texts *)

(** Neither end of the text is white space. *)
Definition cleanEdges (s : jsstring) : Prop :=
  match s with
  | [] => True
  | c :: _ => isWhiteSpace c = false
  end
  /\ match rev s with
     | [] => True
     | c :: _ => isWhiteSpace c = false
     end.


(** ** The order of the documents *)

(** [t] may stand before [u] in the order [newerFirst]. *)
Definition precedes (newerFirst : Tickets.Field -> Tickets.Field -> bool)
           (t u : Tickets.TicketDoc) : Prop :=
  newerFirst (Tickets.createdAt t) (Tickets.createdAt u) = true.

(** The time value of a date, and the order of dates on it: the later one
    first.  What is not a date counts as the time 0. *)
Definition timeOf (f : Tickets.Field) : Q :=
  match f with
  | Tickets.Date (Fin q) _ => q
  | _ => 0
  end.

Definition laterFirst (a b : Tickets.Field) : bool :=
  Qle_bool (timeOf b) (timeOf a).

(** A document that holds nothing but the date of its creation. *)
Definition createdOn (time : Q) (text : jsstring) : Tickets.TicketDoc :=
  Tickets.mkTicketDoc (Tickets.Date (Fin time) text) Tickets.Missing Tickets.Missing
    Tickets.Missing Tickets.Missing Tickets.Missing Tickets.Missing.

(** ** A reader of CSV *)

(** What a reader finds in a cell: a text that stood between double quotes,
    or one that stood bare.  A missing field is the bare cell of no
    characters, an empty text the quoted one. *)
Inductive Cell : Type :=
| Bare (text : jsstring)
| Quoted (text : jsstring).

(** Where the reader is in a cell: at its start, inside a bare text, inside
    a quoted text, or after a double quote met inside a quoted text, which
    either closes the cell or is the first of a doubled one. *)
Inductive Mode : Type :=
| AtStart
| InBare (text : jsstring)
| InQuoted (text : jsstring)
| AfterQuote (text : jsstring).

Record Reader : Type := mkReader {
  read_rows : list (list Cell);   (* the lines that are complete *)
  read_cells : list Cell;         (* the complete cells of the line *)
  read_mode : Mode
}.

(** The cell that a comma, a line feed or the end of the text completes;
    none of them may come inside the quotes. *)
Definition pendingCell (m : Mode) : option Cell :=
  match m with
  | AtStart => Some (Bare [])
  | InBare s => Some (Bare s)
  | AfterQuote s => Some (Quoted s)
  | InQuoted _ => None
  end.

Definition endCell (r : Reader) (c : Cell) : Reader :=
  mkReader (read_rows r) (read_cells r ++ [c]) AtStart.

Definition endRow (r : Reader) (c : Cell) : list (list Cell) :=
  read_rows r ++ [read_cells r ++ [c]].

Definition inMode (r : Reader) (m : Mode) : Reader :=
  mkReader (read_rows r) (read_cells r) m.

(** One character.  Inside the quotes every character but the double quote
    belongs to the text, commas and line feeds too; a double quote inside a
    bare text, and anything but a comma, a line feed or a second double
    quote after a closing one, is an error. *)
Definition readChar (r : Reader) (c : N) : option Reader :=
  match read_mode r with
  | InQuoted s =>
      Some (inMode r (if (c =? QUOTE)%N then AfterQuote s else InQuoted (s ++ [c])))
  | m =>
      if (c =? COMMA)%N then option_map (endCell r) (pendingCell m)
      else if (c =? LF)%N
           then option_map (fun cl => mkReader (endRow r cl) [] AtStart) (pendingCell m)
           else match m with
                | AtStart =>
                    Some (inMode r (if (c =? QUOTE)%N then InQuoted [] else InBare [c]))
                | InBare s =>
                    if (c =? QUOTE)%N then None else Some (inMode r (InBare (s ++ [c])))
                | AfterQuote s =>
                    if (c =? QUOTE)%N then Some (inMode r (InQuoted (s ++ [QUOTE])))
                    else None
                | InQuoted _ => None
                end
  end.

Fixpoint readChars (r : Reader) (text : jsstring) : option Reader :=
  match text with
  | [] => Some r
  | c :: rest =>
      match readChar r c with
      | Some r' => readChars r' rest
      | None => None
      end
  end.

(** The lines of cells of a text, the last line ending with the text. *)
Definition readCsv (text : jsstring) : option (list (list Cell)) :=
  match readChars (mkReader [] [] AtStart) text with
  | Some r => option_map (endRow r) (pendingCell (read_mode r))
  | None => None
  end.

(** What the reader is to find for a field, and for a document. *)
Definition cellOf (f : Tickets.Field) : Cell :=
  match f with
  | Tickets.Missing => Bare []
  | Tickets.Text s => Quoted s
  | Tickets.Num n => Quoted (NumberToString n)
  | Tickets.Date _ text => Quoted text
  end.

Definition cellsOf (t : Tickets.TicketDoc) : list Cell :=
  map cellOf
    [ Tickets.createdAt t; Tickets.doc_firstName t; Tickets.doc_lastName t;
      Tickets.doc_email t; Tickets.doc_ticketType t; Tickets.doc_quantity t;
      Tickets.doc_notes t ].

(** A note with a comma, a line feed and a double quote in it. *)
Definition awkwardNote : jsstring :=
  (str "two, please" ++ [LF] ++ str "say " ++ [QUOTE] ++ str "hi" ++ [QUOTE])%list.

(** The text of the date of time 0 on a host that keeps universal time. *)
Definition epochText : jsstring :=
  str "Thu Jan 01 1970 00:00:00 GMT+0000 (Coordinated Universal Time)".

(** A document with that note, created at that time. *)
Definition awkwardTicket : Tickets.TicketDoc :=
  Tickets.mkTicketDoc (Tickets.Date (Fin 0) epochText)
    (Tickets.Text (str "Ann")) (Tickets.Text (str "Lee"))
    (Tickets.Text (str "a@b.co")) (Tickets.Text (str "VIP Pass"))
    (Tickets.Num (ofZ 2)) (Tickets.Text awkwardNote).

(** ** What the schema asks of a validated submission *)

(** The constraints of [ticketSchema] that the validator of server.js does
    not check: names that are more than white space, and the lengths. *)
Definition fitsSchema (toLowerCase : jsstring -> jsstring)
           (fn ln em nt : jsstring) : bool :=
  negb (JsString.eqb (trim fn) []) && (List.length (trim fn) <=? 80)%nat
  && (negb (JsString.eqb (trim ln) []) && (List.length (trim ln) <=? 80)%nat)
  && (negb (JsString.eqb (trim (toLowerCase em)) [])
      && (List.length (trim (toLowerCase em)) <=? 160)%nat)
  && (List.length (trim nt) <=? 1000)%nat.

(** A collection that records the documents inserted into it. *)
Definition recordingInsert (doc : TicketInput) (db : list TicketInput)
  : Result nat * list TicketInput :=
  (Ok (List.length db), db ++ [doc]).
(** * Properties *)

(** ** The language of a pattern *)

Lemma nullable_lang (r : regex) : nullable r = true <-> lang r [].
Proof.
  induction r; simpl; split; intro H; auto; try discriminate.
  - inv H.
  - inv H.
  - apply andb_true_iff in H as [H1 H2].
    change (@nil N) with (@nil N ++ @nil N).
    constructor; [apply IHr1 | apply IHr2]; assumption.
  - inv H. split_word.
    apply andb_true_iff; split; [apply IHr1 | apply IHr2]; assumption.
  - apply orb_true_iff in H as [H | H];
      [apply lang_AltL, IHr1 | apply lang_AltR, IHr2]; assumption.
  - apply orb_true_iff. inv H; [left; apply IHr1 | right; apply IHr2]; assumption.
Qed.

(** A non-empty word of [Star r] starts with a non-empty word of [r]. *)
Lemma lang_Star_cons (r : regex) (c : N) (s : jsstring) :
  lang (Star r) (c :: s) ->
  exists s1 s2, s = s1 ++ s2 /\ lang r (c :: s1) /\ lang (Star r) s2.
Proof.
  intro H. remember (Star r) as r' eqn:Er. remember (c :: s) as w eqn:Ew.
  revert c s Ew.
  induction H; intros c0 s0 Ew; try discriminate.
  injection Er as ->.
  destruct s1 as [| c1 s1'].
  - simpl in Ew. apply IHlang2; auto.
  - simpl in Ew. injection Ew as -> <-.
    exists s1', s2. auto.
Qed.

Lemma lang_cons_app (r1 r2 : regex) (c : N) (s1 s2 : jsstring) :
  lang r1 (c :: s1) -> lang r2 s2 -> lang (Cat r1 r2) (c :: s1 ++ s2).
Proof.
  intros H1 H2. change (c :: s1 ++ s2) with ((c :: s1) ++ s2). auto.
Qed.

Lemma deriv_lang (r : regex) (c : N) (s : jsstring) :
  lang (deriv c r) s <-> lang r (c :: s).
Proof.
  revert s. induction r; intro s; simpl.
  - split; intro H; inv H.
  - split; intro H; inv H.
  - destruct (p c) eqn:Hp; split; intro H; inv H; auto; congruence.
  - destruct (nullable r1) eqn:Hn; split; intro H.
    + inv H.
      * match goal with H' : lang (Cat _ _) _ |- _ => inv H' end.
        apply lang_cons_app; [apply IHr1|]; assumption.
      * apply nullable_lang in Hn.
        change (c :: s) with ([] ++ c :: s).
        constructor; [|apply IHr2]; assumption.
    + inv H. split_word.
      * apply lang_AltR, IHr2. assumption.
      * apply lang_AltL. constructor; [apply IHr1|]; assumption.
    + inv H. apply lang_cons_app; [apply IHr1|]; assumption.
    + inv H. split_word.
      * match goal with H1 : lang r1 [] |- _ => apply nullable_lang in H1 end.
        congruence.
      * constructor; [apply IHr1|]; assumption.
  - split; intro H; inv H;
      solve [apply lang_AltL, IHr1; assumption | apply lang_AltR, IHr2; assumption].
  - split; intro H.
    + inv H. change (c :: s1 ++ s2) with ((c :: s1) ++ s2).
      constructor; [apply IHr|]; assumption.
    + apply lang_Star_cons in H as (s1 & s2 & -> & H1 & H2).
      constructor; [apply IHr|]; assumption.
Qed.

(** The matcher decides the language. *)
Lemma matches_lang (r : regex) (s : jsstring) :
  matches r s = true <-> lang r s.
Proof.
  revert r. induction s as [| c s IH]; intro r; simpl.
  - apply nullable_lang.
  - rewrite IH. apply deriv_lang.
Qed.

Lemma lang_Star_Chr (p : N -> bool) (s : jsstring) :
  lang (Star (Chr p)) s <-> forallb p s = true.
Proof.
  split.
  - intro H. remember (Star (Chr p)) as r eqn:Er.
    induction H; try discriminate; auto.
    injection Er as ->. inv H. simpl.
    apply andb_true_iff; split; auto.
  - induction s as [| c s IH]; simpl; intro H; auto.
    apply andb_true_iff in H as [Hc Hs].
    change (c :: s) with ([c] ++ s). auto.
Qed.

Lemma lang_Plus_Chr (p : N -> bool) (s : jsstring) :
  lang (Plus (Chr p)) s <-> s <> [] /\ forallb p s = true.
Proof.
  unfold Plus. split.
  - intro H. inv H.
    match goal with H1 : lang (Chr _) _ |- _ => inv H1 end.
    match goal with H2 : lang (Star _) _ |- _ => apply lang_Star_Chr in H2 end.
    simpl. split; [discriminate | apply andb_true_iff; auto].
  - intros [Hne H]. destruct s as [| c s]; [congruence |].
    simpl in H. apply andb_true_iff in H as [Hc Hs].
    change (c :: s) with ([c] ++ s).
    constructor; [auto | apply lang_Star_Chr; assumption].
Qed.

Lemma lang_literal (c : N) (s : jsstring) :
  lang (Chr (N.eqb c)) s <-> s = [c].
Proof.
  split; intro H.
  - inv H. match goal with E : (_ =? _)%N = true |- _ => apply N.eqb_eq in E end.
    congruence.
  - subst. constructor. apply N.eqb_refl.
Qed.

(** ** The shape of an accepted email *)

Lemma emailPattern_shape (s : jsstring) :
  matches Server.emailPattern s = true <-> emailShape s.
Proof.
  rewrite matches_lang. unfold Server.emailPattern, emailShape. split.
  - intro H. inv H.
    repeat match goal with
           | H : lang (Cat _ _) _ |- _ => inv H
           | H : lang (Chr (N.eqb _)) _ |- _ => apply lang_literal in H; subst
           | H : lang (Plus (Chr _)) _ |- _ => apply lang_Plus_Chr in H as [? ?]
           end.
    eexists _, _, _. repeat split; eauto.
  - intros (l & d1 & d2 & -> & Hl & Hd1 & Hd2 & Fl & Fd1 & Fd2).
    constructor; [apply lang_Plus_Chr; auto |].
    change (AT :: d1 ++ DOT :: d2) with ([AT] ++ d1 ++ [DOT] ++ d2).
    constructor; [apply lang_literal; reflexivity |].
    constructor; [apply lang_Plus_Chr; auto |].
    constructor; [apply lang_literal; reflexivity | apply lang_Plus_Chr; auto].
Qed.

Lemma emailChar_spec (c : N) :
  Server.emailChar c = true <-> isWhiteSpace c = false /\ c <> AT.
Proof.
  unfold Server.emailChar.
  rewrite andb_true_iff, !negb_true_iff, N.eqb_neq. reflexivity.
Qed.

Lemma emailChar_no_at (l : jsstring) :
  forallb Server.emailChar l = true -> count_occ N.eq_dec l AT = 0%nat.
Proof.
  induction l as [| c l IH]; simpl; intro H; [reflexivity |].
  apply andb_true_iff in H as [Hc Hl].
  apply emailChar_spec in Hc as [_ Hc].
  destruct (N.eq_dec c AT); [contradiction | auto].
Qed.

Lemma emailChar_no_space (l : jsstring) :
  forallb Server.emailChar l = true ->
  forallb (fun c => negb (isWhiteSpace c)) l = true.
Proof.
  induction l as [| c l IH]; simpl; intro H; [reflexivity |].
  apply andb_true_iff in H as [Hc Hl].
  apply emailChar_spec in Hc as [Hc _].
  rewrite Hc, IH by assumption. reflexivity.
Qed.

(** What the validator of server.js does with an email that is a string. *)
Lemma emailRejected_string (s : jsstring) :
  Server.emailRejected (JStr s) = Ok (negb (matches Server.emailPattern s)).
Proof.
  destruct s as [| c s]; reflexivity.
Qed.

Lemma emailShape_claimed (s : jsstring) : emailShape s -> claimedEmailShape s.
Proof.
  intros (l & d1 & d2 & -> & Hl & Hd1 & Hd2 & Fl & Fd1 & Fd2).
  exists l, (d1 ++ DOT :: d2). repeat split; auto.
  - rewrite count_occ_app. simpl.
    destruct (N.eq_dec AT AT) as [_ | N]; [| congruence].
    rewrite count_occ_app. simpl.
    destruct (N.eq_dec DOT AT) as [E | _]; [discriminate E |].
    rewrite !emailChar_no_at by assumption. reflexivity.
  - destruct d1; [congruence | discriminate].
  - rewrite !forallb_app. simpl.
    rewrite !emailChar_no_space by assumption. reflexivity.
  - apply in_or_app. right. left. reflexivity.
Qed.

(** C3 (as amended): the validator of server.js accepts an email string
    exactly when it is a local part, one at sign and a domain, none of them
    holding white space or a further at sign, where the domain has a dot
    with at least one character before it and at least one after it.  The
    condition of the specification follows from it, and the four examples of
    the specification come out as stated. *)
Theorem email_accepted_iff_shape :
  (forall s, Server.emailRejected (JStr s) = Ok false <-> emailShape s)
  /\ (forall s, Server.emailRejected (JStr s) = Ok false -> claimedEmailShape s)
  /\ Server.emailRejected (JStr (str "foo")) = Ok true
  /\ Server.emailRejected (JStr (str "foo@")) = Ok true
  /\ Server.emailRejected (JStr (str "@bar.com")) = Ok true
  /\ Server.emailRejected (JStr (str "a@b.co")) = Ok false.
Proof.
  assert (A : forall s, Server.emailRejected (JStr s) = Ok false <-> emailShape s).
  { intro s. rewrite emailRejected_string, <- emailPattern_shape.
    destruct (matches Server.emailPattern s); simpl; split; congruence. }
  split; [exact A |].
  split; [intros s H; apply emailShape_claimed, A, H |].
  repeat split; vm_compute; reflexivity.
Qed.

(** C3 (counterexample): [a@.co] and [a@b.] each have exactly one at sign,
    characters other than white space on both sides of it and a dot in the
    domain, and the validator rejects both: the pattern wants a character
    before the dot and one after it. *)
Lemma email_dot_first_rejected :
  claimedEmailShape (str "a@.co")
  /\ Server.emailRejected (JStr (str "a@.co")) = Ok true
  /\ claimedEmailShape (str "a@b.")
  /\ Server.emailRejected (JStr (str "a@b.")) = Ok true.
Proof.
  split.
  - exists (str "a"), (str ".co").
    repeat split; try discriminate; try reflexivity.
    left. reflexivity.
  - split; [vm_compute; reflexivity |].
    split; [| vm_compute; reflexivity].
    exists (str "a"), (str "b.").
    repeat split; try discriminate; try reflexivity.
    right. left. reflexivity.
Qed.

(** ** The quantity rule *)

Lemma quantityRejected_Fin (q : Q) :
  Server.quantityRejected (Fin q) = false <-> (1 <= q /\ q <= 20)%Q.
Proof.
  unfold Server.quantityRejected, gtb, ltb, ofZ. simpl.
  rewrite orb_false_iff, !negb_false_iff, !Qle_bool_iff.
  reflexivity.
Qed.

Lemma quantityRejected_false (n : JsNum) :
  Server.quantityRejected n = false <-> exists q, n = Fin q /\ (1 <= q /\ q <= 20)%Q.
Proof.
  destruct n as [| | | q].
  - split; [discriminate | intros (q & E & _); discriminate].
  - split; [discriminate | intros (q & E & _); discriminate].
  - split; [discriminate | intros (q & E & _); discriminate].
  - rewrite quantityRejected_Fin. split.
    + intro H. exists q. auto.
    + intros (q' & E & H). injection E as ->. assumption.
Qed.

Lemma inject_Z_between (z : Z) :
  (1 <= inject_Z z /\ inject_Z z <= 20)%Q <-> (1 <= z <= 20)%Z.
Proof.
  change 1%Q with (inject_Z 1). change 20%Q with (inject_Z 20).
  rewrite <- !Zle_Qle. reflexivity.
Qed.

Lemma validate_withQuantity (v : JsValue) :
  Server.validate (withQuantity v)
  = (n <- ToNumber v ;;
     Ok (if Server.quantityRejected n then [Server.quantityMessage] else [], n)).
Proof.
  unfold Server.validate, withQuantity. cbn [Server.firstName Server.lastName
    Server.email Server.ticketType Server.quantity].
  replace (Server.emailRejected (JStr (str "a@b.co"))) with (@Ok bool false)
    by (vm_compute; reflexivity).
  replace (includes Server.allowedTickets (JStr (str "GA Pass"))) with true
    by (vm_compute; reflexivity).
  cbn. destruct (ToNumber v) as [n |]; cbn; [| reflexivity].
  destruct (Server.quantityRejected n); reflexivity.
Qed.

Lemma acceptsQuantity_iff (v : JsValue) :
  acceptsQuantity v
  <-> exists q, ToNumber v = Ok (Fin q) /\ (1 <= q /\ q <= 20)%Q.
Proof.
  unfold acceptsQuantity. rewrite validate_withQuantity. split.
  - intros (n & H). destruct (ToNumber v) as [m |]; [| discriminate].
    cbn in H. destruct (Server.quantityRejected m) eqn:R; [discriminate |].
    apply quantityRejected_false in R as (q & -> & R). eauto.
  - intros (q & -> & H). exists (Fin q). cbn.
    apply quantityRejected_Fin in H. rewrite H. reflexivity.
Qed.

(** C2 (as amended): the validator of server.js accepts a submitted quantity
    exactly when [Number(quantity)] is a finite number between 1 and 20; for
    an integer that is when it lies between 1 and 20, so 0 and 21 are
    rejected and 1 and 20 accepted, but the number need not be an integer
    (1.5 is accepted) and the value need not be a number (the string 5 is
    accepted). *)
Theorem quantity_accepted_iff_in_range :
  (forall v, acceptsQuantity v
             <-> exists q, ToNumber v = Ok (Fin q) /\ (1 <= q /\ q <= 20)%Q)
  /\ (forall z : Z, acceptsQuantity (JNum (ofZ z)) <-> (1 <= z <= 20)%Z)
  /\ ~ acceptsQuantity (JNum (ofZ 0))
  /\ ~ acceptsQuantity (JNum (ofZ 21))
  /\ acceptsQuantity (JNum (ofZ 1))
  /\ acceptsQuantity (JNum (ofZ 20))
  /\ acceptsQuantity (JNum (Fin 1.5))
  /\ acceptsQuantity (JStr (str "5")).
Proof.
  assert (HZ : forall z : Z, acceptsQuantity (JNum (ofZ z)) <-> (1 <= z <= 20)%Z).
  { intro z. rewrite acceptsQuantity_iff, <- inject_Z_between. split.
    - intros (q & E & H). injection E as <-. assumption.
    - intro H. exists (inject_Z z). split; [reflexivity | assumption]. }
  split; [exact acceptsQuantity_iff |].
  split; [exact HZ |].
  split; [rewrite HZ; lia |].
  split; [rewrite HZ; lia |].
  split; [apply HZ; lia |].
  split; [apply HZ; lia |].
  split.
  - exists (Fin 1.5). vm_compute. reflexivity.
  - exists (Fin 5). vm_compute. reflexivity.
Qed.

(** C2 (counterexample): a submission whose quantity is 1.5 passes
    validation with no error, and 1.5 is no integer. *)
Lemma quantity_one_and_a_half_accepted :
  Server.validate (withQuantity (JNum (Fin 1.5))) = Ok ([], Fin 1.5)
  /\ (forall z : Z, ~ (1.5 == inject_Z z)%Q).
Proof.
  split; [vm_compute; reflexivity |].
  intros z H. unfold Qeq in H. simpl in H. lia.
Qed.

(** ** The list of errors *)

(** The validator reports exactly the failed checks. *)
Lemma validate_reported (body : Submission) :
  Server.validate body
  = (badEmail <- Server.emailRejected (email body) ;;
     qtyNum <- ToNumber (quantity body) ;;
     Ok (reported (checks body badEmail qtyNum), qtyNum)).
Proof.
  unfold Server.validate, reported, checks, push.
  destruct (Server.emailRejected (email body)) as [badEmail |]; cbn; [| reflexivity].
  destruct (ToNumber (quantity body)) as [qtyNum |]; cbn; [| reflexivity].
  destruct (truthy (firstName body)), (truthy (lastName body)), badEmail,
    (includes Server.allowedTickets (ticketType body)), (quantityRejected qtyNum);
    reflexivity.
Qed.

(** A field that is missing, [undefined] or [null], fails its check. *)
Lemma missing_field_fails (v : JsValue) :
  isNullish v = true ->
  truthy v = false
  /\ Server.emailRejected v = Ok true
  /\ includes Server.allowedTickets v = false
  /\ exists n, ToNumber v = Ok n /\ quantityRejected n = true.
Proof.
  destruct v; try discriminate; intros _; cbn;
    repeat split; eauto.
Qed.

Lemma reported_sublist (cs : list (bool * jsstring)) (m : jsstring) :
  In m (reported cs) <-> In (true, m) cs.
Proof.
  unfold reported. rewrite in_map_iff. split.
  - intros ([b m'] & E & H). simpl in E. subst.
    apply filter_In in H as [H Hb]. simpl in Hb. subst. assumption.
  - intro H. exists (true, m). split; [reflexivity |].
    apply filter_In. split; [assumption | reflexivity].
Qed.

Lemma reported_nil (cs : list (bool * jsstring)) :
  reported cs = [] <-> forallb (fun c => negb (fst c)) cs = true.
Proof.
  unfold reported. induction cs as [| [[|] m] cs IH]; simpl.
  - split; reflexivity.
  - split; discriminate.
  - exact IH.
Qed.

(** The five messages are distinct texts. *)
Lemma messages_distinct :
  NoDup [firstNameMessage; lastNameMessage; emailMessage; ticketTypeMessage;
         Server.quantityMessage].
Proof.
  repeat constructor; simpl; intuition discriminate.
Qed.

Lemma reported_subsequence (cs : list (bool * jsstring)) :
  subsequence (reported cs) (map snd cs).
Proof.
  unfold reported. induction cs as [| [[|] m] cs IH]; simpl; constructor; assumption.
Qed.

Lemma subsequence_In {A : Type} (xs ys : list A) (x : A) :
  subsequence xs ys -> In x xs -> In x ys.
Proof.
  induction 1 as [| y xs ys _ IH | y xs ys _ IH]; simpl; intro H; auto.
  destruct H as [H | H]; auto.
Qed.

Lemma subsequence_NoDup {A : Type} (xs ys : list A) :
  subsequence xs ys -> NoDup ys -> NoDup xs.
Proof.
  induction 1 as [| y xs ys S IH | y xs ys S IH]; intro N.
  - constructor.
  - inversion N as [| ? ? Hn N']; subst. constructor; auto.
    intro H. apply Hn. eapply subsequence_In; eassumption.
  - inversion N; subst. auto.
Qed.

(** The validator of server.js, in full.  When neither conversion throws,
    the list of errors holds the message of each failed check and of no
    other, once each and in the order of the fields.  It throws exactly
    when the conversion of the email or of the quantity does. *)
Theorem errors_one_per_failed_check (body : Submission) :
  match Server.validate body with
  | Ok (errors, qtyNum) =>
      exists badEmail,
        Server.emailRejected (email body) = Ok badEmail
        /\ ToNumber (quantity body) = Ok qtyNum
        /\ errors = reported (checks body badEmail qtyNum)
        /\ (forall m, In m errors <-> In (true, m) (checks body badEmail qtyNum))
        /\ subsequence errors allMessages
        /\ NoDup errors
  | Throw e =>
      Server.emailRejected (email body) = Throw e
      \/ ToNumber (quantity body) = Throw e
  end.
Proof.
  rewrite validate_reported.
  destruct (Server.emailRejected (email body)) as [badEmail |]; cbn [bind];
    [| left; reflexivity].
  destruct (ToNumber (quantity body)) as [qtyNum |]; cbn [bind];
    [| right; reflexivity].
  exists badEmail.
  assert (S : subsequence (reported (checks body badEmail qtyNum)) allMessages)
    by apply reported_subsequence.
  repeat split; auto.
  - apply reported_sublist.
  - apply reported_sublist.
  - eapply subsequence_NoDup; [exact S | apply messages_distinct].
Qed.

(** A body without fields gets the five messages, in the order of the
    fields. *)
Example validate_emptySubmission :
  Server.validate emptySubmission = Ok (allMessages, NaN).
Proof.
  rewrite validate_reported. reflexivity.
Qed.

(** ** The handlers of server.js *)

Section HandlerFacts.

Variable Store : Type.
Variable ObjectId : Type.
Variable Ticket_create : TicketInput -> Store -> Result ObjectId * Store.

(** Validation that ends with errors is answered 400 with the list, and the
    collection is not touched. *)
Lemma post_validation_failed (body : Submission) (db : Store)
      (e : jsstring) (errors : list jsstring) (qtyNum : JsNum) :
  Server.validate body = Ok (e :: errors, qtyNum) ->
  post_api_tickets Ticket_create body db
  = (mkResponse 400 (ValidationFailed ObjectId (str "Validation failed") (e :: errors)), db).
Proof.
  intro H. unfold post_api_tickets, post_api_tickets_try. rewrite H. reflexivity.
Qed.

(** An exception in the validation is answered 500. *)
Lemma post_validation_throws (body : Submission) (db : Store) (e : Exn) :
  Server.validate body = Throw e ->
  post_api_tickets Ticket_create body db
  = (mkResponse 500 (Message ObjectId (str "Error saving ticket")), db).
Proof.
  intro H. unfold post_api_tickets, post_api_tickets_try. rewrite H. reflexivity.
Qed.

(** Without errors the answer is 201 or 500. *)
Lemma post_validation_passed (body : Submission) (db : Store) (qtyNum : JsNum) :
  Server.validate body = Ok ([], qtyNum) ->
  status (fst (post_api_tickets Ticket_create body db)) = 201%N
  \/ status (fst (post_api_tickets Ticket_create body db)) = 500%N.
Proof.
  intro H. unfold post_api_tickets, post_api_tickets_try. rewrite H.
  destruct (ticketInput body qtyNum) as [input |]; [| right; reflexivity].
  destruct (Ticket_create input db) as [[id |] db']; [left | right]; reflexivity.
Qed.

(** The answer is 400 exactly when the validation ends with errors. *)
Lemma post_400_iff (body : Submission) (db : Store) :
  status (fst (post_api_tickets Ticket_create body db)) = 400%N
  <-> exists e errors qtyNum, Server.validate body = Ok (e :: errors, qtyNum).
Proof.
  split.
  - intro H. destruct (Server.validate body) as [[[| e errors] qtyNum] | x] eqn:V.
    + apply post_validation_passed with (db := db) in V as [E | E];
        rewrite E in H; discriminate.
    + eauto.
    + apply post_validation_throws with (db := db) in V.
      rewrite V in H. discriminate.
  - intros (e & errors & qtyNum & V).
    apply post_validation_failed with (db := db) in V.
    rewrite V. reflexivity.
Qed.

(** C1 (as amended): when the validation runs to its end, that is when
    neither the test of the email nor the conversion of the quantity throws,
    and one of the five checks fails, POST /api/tickets answers 400 with the
    message and the list of errors; the list holds the message of each
    failed check and of no other, each once, in the order firstName,
    lastName, email, ticketType, quantity.  A field that is missing fails
    its check. *)
Theorem failed_checks_answered_400
        (body : Submission) (db : Store) (badEmail : bool) (qtyNum : JsNum) :
  Server.emailRejected (email body) = Ok badEmail ->
  ToNumber (quantity body) = Ok qtyNum ->
  existsb fst (checks body badEmail qtyNum) = true ->
  post_api_tickets Ticket_create body db
  = (mkResponse 400
       (ValidationFailed ObjectId (str "Validation failed")
          (reported (checks body badEmail qtyNum))), db)
  /\ (forall m, In m (reported (checks body badEmail qtyNum))
                <-> In (true, m) (checks body badEmail qtyNum))
  /\ subsequence (reported (checks body badEmail qtyNum)) allMessages
  /\ NoDup (reported (checks body badEmail qtyNum))
  /\ (forall v, isNullish v = true ->
                truthy v = false
                /\ Server.emailRejected v = Ok true
                /\ includes Server.allowedTickets v = false
                /\ exists n, ToNumber v = Ok n /\ quantityRejected n = true).
Proof.
  intros E Q F.
  assert (V : Server.validate body = Ok (reported (checks body badEmail qtyNum), qtyNum))
    by (rewrite validate_reported, E, Q; reflexivity).
  assert (S : subsequence (reported (checks body badEmail qtyNum)) allMessages)
    by apply reported_subsequence.
  split.
  - destruct (reported (checks body badEmail qtyNum)) as [| e errors] eqn:R.
    + apply reported_nil in R.
      apply existsb_exists in F as ([b m] & Hin & Hb).
      rewrite forallb_forall in R. specialize (R _ Hin).
      simpl in *. subst. discriminate.
    + eapply post_validation_failed. exact V.
  - split; [intro m; apply reported_sublist |].
    split; [exact S |].
    split; [eapply subsequence_NoDup; [exact S | apply messages_distinct] |].
    exact missing_field_fails.
Qed.


(** A submission that passes and whose names and email are strings, its
    notes a string or missing, reaches [Ticket.create] with the names, the
    email and the notes trimmed, the ticket type as sent and the quantity
    converted to a number; the email is left in the case it was sent in. *)
Theorem valid_strings_reach_create
        (fn ln em : jsstring) (tt q notes : JsValue) (qtyNum : JsNum) (db : Store) :
  Server.validate (mkSubmission (JStr fn) (JStr ln) (JStr em) tt q notes)
  = Ok ([], qtyNum) ->
  isString notes || isNullish notes = true ->
  ToNumber q = Ok qtyNum
  /\ post_api_tickets Ticket_create (mkSubmission (JStr fn) (JStr ln) (JStr em) tt q notes) db
     = answerOf (Ticket_create
                   (mkTicketInput (trim fn) (trim ln) (trim em) tt qtyNum
                      (trim (notesText notes))) db).
Proof.
  intros V Hn.
  assert (Q : ToNumber q = Ok qtyNum).
  { rewrite validate_reported in V. cbn [email quantity] in V.
    destruct (Server.emailRejected (JStr em)); [| discriminate].
    cbn [bind] in V. destruct (ToNumber q) as [n |]; [| discriminate].
    cbn [bind] in V. injection V as _ ->. reflexivity. }
  split; [exact Q |].
  unfold post_api_tickets, post_api_tickets_try. rewrite V.
  replace (ticketInput (mkSubmission (JStr fn) (JStr ln) (JStr em) tt q notes) qtyNum)
    with (Ok (mkTicketInput (trim fn) (trim ln) (trim em) tt qtyNum
                (trim (notesText notes))))
    by (destruct notes; try discriminate; reflexivity).
  destruct (Ticket_create _ db) as [[id |] db']; reflexivity.
Qed.

(** C8: whenever POST /api/tickets answers 400, the validation ended with a
    non-empty list of errors, the body of the answer is the message and that
    list and nothing else, and the collection is what it was before the
    request: [Ticket.create] was not called, whatever it would have done. *)
Theorem post_400_leaves_store (body : Submission) (db : Store) :
  status (fst (post_api_tickets Ticket_create body db)) = 400%N ->
  snd (post_api_tickets Ticket_create body db) = db
  /\ exists errors qtyNum,
       Server.validate body = Ok (errors, qtyNum)
       /\ errors <> []
       /\ Server.body (fst (post_api_tickets Ticket_create body db))
          = ValidationFailed ObjectId (str "Validation failed") errors.
Proof.
  intro H. apply post_400_iff in H as (e & errors & qtyNum & V).
  rewrite (post_validation_failed body db e errors qtyNum V). simpl.
  split; [reflexivity |].
  exists (e :: errors), qtyNum. split; [assumption |].
  split; [discriminate | reflexivity].
Qed.

(** C7: GET /api/health answers 200 with [ok] the literal true and [mongo]
    (the store of the specification) true exactly when the connection is in
    the state 1, connected; it returns the collection as it received it. *)
Theorem health_ok_and_pure (readyState : N) (db : Store) :
  status (fst (get_api_health ObjectId readyState db)) = 200%N
  /\ (exists connected,
        Server.body (fst (get_api_health ObjectId readyState db)) = Health ObjectId true connected
        /\ (connected = true <-> readyState = 1%N))
  /\ snd (get_api_health ObjectId readyState db) = db.
Proof.
  unfold get_api_health, res_json. simpl.
  split; [reflexivity |].
  split; [| reflexivity].
  exists (readyState =? 1)%N. split; [reflexivity | apply N.eqb_eq].
Qed.

End HandlerFacts.

(** The body without fields fails all five checks and is answered 400 with
    the five messages. *)
Lemma failed_checks_answered_400_empty :
  existsb fst (checks emptySubmission true NaN) = true
  /\ post_api_tickets recordingCreate emptySubmission []
     = (mkResponse 400 (ValidationFailed nat (str "Validation failed") allMessages), []).
Proof.
  split; [reflexivity |].
  exact (proj1 (failed_checks_answered_400 _ _ recordingCreate emptySubmission []
                  true NaN eq_refl eq_refl eq_refl)).
Defined.

(** C1 (counterexample): with no first name and a quantity of one and a
    half, which is no integer, the answer is 400 but its list holds the one
    message of the first name and none for the quantity.  With no first name
    and a quantity that [Number] cannot convert, the answer is 500. *)
Lemma fractional_quantity_not_listed :
  post_api_tickets recordingCreate noNameFractionalQuantity []
  = (mkResponse 400 (ValidationFailed nat (str "Validation failed") [firstNameMessage]), [])
  /\ (forall z : Z, ~ (1.5 == inject_Z z)%Q)
  /\ post_api_tickets recordingCreate noNameBadQuantity []
     = (mkResponse 500 (Message nat (str "Error saving ticket")), []).
Proof.
  split; [vm_compute; reflexivity |].
  split; [| vm_compute; reflexivity].
  intros z H. unfold Qeq in H. simpl in H. lia.
Qed.

(** A submission with spaces around its first name, capitals in its email
    and the quantity sent as a string reaches [Ticket.create] trimmed and
    converted, the email still in capitals. *)
Lemma valid_strings_reach_create_recorded :
  Server.validate paddedSubmission = Ok ([], ofZ 2)
  /\ post_api_tickets recordingCreate paddedSubmission []
     = (mkResponse 201 (Saved (str "Saved") 0%nat),
        [mkTicketInput (str "Ann") (str "Lee") (str "A@B.CO") (JStr (str "VIP Pass"))
           (ofZ 2) []]).
Proof.
  assert (V : Server.validate paddedSubmission = Ok ([], ofZ 2))
    by (vm_compute; reflexivity).
  split; [exact V |].
  exact (proj2 (valid_strings_reach_create _ _ recordingCreate
                  (str " Ann ") (str "Lee") (str "A@B.CO") (JStr (str "VIP Pass"))
                  (JStr (str "2")) JUndefined (ofZ 2) [] V eq_refl)).
Defined.

(** The body without fields is answered 400, and a collection that records
    every call of [Ticket.create] stays empty. *)
Lemma post_400_leaves_store_empty :
  status (fst (post_api_tickets recordingCreate emptySubmission [])) = 400%N
  /\ snd (post_api_tickets recordingCreate emptySubmission []) = [].
Proof.
  assert (H : status (fst (post_api_tickets recordingCreate emptySubmission [])) = 400%N)
    by (vm_compute; reflexivity).
  split; [exact H |].
  exact (proj1 (post_400_leaves_store _ _ recordingCreate emptySubmission [] H)).
Defined.

(** ** The model *)

Lemma jsstring_eqb_eq (a b : jsstring) : JsString.eqb a b = true <-> a = b.
Proof.
  revert b. induction a as [| x a IH]; intros [| y b]; simpl;
    try (split; reflexivity); try (split; discriminate).
  rewrite andb_true_iff, N.eqb_eq, IH. split.
  - intros [-> ->]. reflexivity.
  - intro E. injection E as -> ->. auto.
Qed.





Section ModelFacts.

Variable toLowerCase : jsstring -> jsstring.


End ModelFacts.


(** ** Submissions that the validator of server.js mishandles *)

Section Faults.

Variable Store : Type.
Variable ObjectId : Type.
Variable Ticket_create : TicketInput -> Store -> Result ObjectId * Store.
Variable toLowerCase : jsstring -> jsstring.
Variable insertOne : TicketInput -> Store -> Result ObjectId * Store.



(** C9 (the code at the failing input): a first name of three spaces passes
    the validation of server.js; the empty string is handed to
    [Ticket.create], whose schema requires the path, and the request is
    answered 500, never 400.  The validator of lines 230 to 235 of
    tickets.js reports the field. *)
Theorem post_blank_name_500 (db : Store) :
  Server.validate blankName = Ok ([], ofZ 2)
  /\ (exists input, ticketInput blankName (ofZ 2) = Ok input
                    /\ in_firstName input = [])
  /\ status (fst (post_api_tickets Ticket_create blankName db)) <> 400%N
  /\ post_api_tickets (Server.Ticket_create toLowerCase insertOne) blankName db
     = (mkResponse 500 (Message ObjectId (str "Error saving ticket")), db)
  /\ Tickets.validateNested blankName = Ok [str "First name is required."].
Proof.
  assert (V : Server.validate blankName = Ok ([], ofZ 2))
    by (vm_compute; reflexivity).
  split; [exact V |].
  split; [eexists; split; vm_compute; reflexivity |].
  split.
  - intro H. apply post_validation_passed with (Ticket_create := Ticket_create) (db := db) in V.
    destruct V as [E | E]; rewrite E in H; discriminate.
  - split; [| vm_compute; reflexivity].
    unfold post_api_tickets, post_api_tickets_try. rewrite V.
    reflexivity.
Qed.

End Faults.

(** ** The two validators *)

Lemma strict_emailRejected (v : JsValue) :
  Tickets.emailRejected v = Ok (strictEmailBad v).
Proof.
  unfold Tickets.emailRejected.
  destruct v as [| | [|] | [| | | q] | [| c s] | | |]; try reflexivity.
  simpl. destruct (Qeq_bool q 0); reflexivity.
Qed.

Lemma strict_quantityAccepted (v : JsValue) :
  Tickets.quantityAccepted v = Ok (strictQuantityOk v).
Proof.
  unfold Tickets.quantityAccepted.
  destruct v as [| | | [| | | q] | | | |]; reflexivity.
Qed.

(** The validator of tickets.js never throws and reports its failed checks. *)
Lemma strict_validate_reported (body : Submission) :
  Tickets.validate body = Ok (reported (strictChecks body)).
Proof.
  unfold Tickets.validate.
  rewrite strict_emailRejected, strict_quantityAccepted. cbn.
  unfold reported, strictChecks, push.
  destruct (negb (truthy (firstName body)) || negb (isString (firstName body))),
    (negb (truthy (lastName body)) || negb (isString (lastName body))),
    (strictEmailBad (email body)),
    (negb (truthy (ticketType body))
     || negb (includes Tickets.allowedTickets (ticketType body))),
    (strictQuantityOk (quantity body)); reflexivity.
Qed.








(** ** The CSV export *)

Lemma undouble_replace_quotes (s : jsstring) :
  undouble (replace_quotes s) = Some s.
Proof.
  induction s as [| c s IH]; [reflexivity |].
  unfold replace_quotes in *. simpl.
  destruct (c =? QUOTE)%N eqn:E; simpl.
  - apply N.eqb_eq in E. subst. rewrite IH. reflexivity.
  - rewrite E, IH. reflexivity.
Qed.

Lemma unquote_quoted (s : jsstring) : unquote (quoted s) = Some s.
Proof.
  unfold unquote, quoted. rewrite rev_app_distr. simpl.
  rewrite rev_involutive. apply undouble_replace_quotes.
Qed.

Lemma escape_nullish (v : JsValue) :
  isNullish v = true -> Tickets.escape v = Ok [].
Proof.
  unfold Tickets.escape. intros ->. reflexivity.
Qed.

Lemma escape_value (v : JsValue) (s : jsstring) :
  isNullish v = false -> ToString v = Ok s -> Tickets.escape v = Ok (quoted s).
Proof.
  unfold Tickets.escape. intros -> ->. reflexivity.
Qed.

Lemma escape_field (f : Tickets.Field) :
  Tickets.escape (Tickets.fieldValue f) = Ok (cell f).
Proof.
  destruct f; reflexivity.
Qed.

(** C4 (as amended): a field that holds a value is written between double
    quotes with each double quote of its text doubled, so that a reader of
    CSV gets the text back; the note [He said "hi"] is written as the
    specification says.  A missing or null field is written as nothing at
    all, not as a pair of quotes. *)
Theorem escape_quotes_values_only :
  (forall v s, isNullish v = false -> ToString v = Ok s ->
               Tickets.escape v = Ok (QUOTE :: replace_quotes s ++ [QUOTE]))
  /\ (forall f, Tickets.escape (Tickets.fieldValue f) = Ok (cell f))
  /\ (forall s, unquote (QUOTE :: replace_quotes s ++ [QUOTE]) = Some s)
  /\ Tickets.escape (JStr heSaidHi) = Ok heSaidHiCell
  /\ (forall v, isNullish v = true -> Tickets.escape v = Ok []).
Proof.
  split; [exact escape_value |].
  split; [exact escape_field |].
  split; [exact unquote_quoted |].
  split; [vm_compute; reflexivity | exact escape_nullish].
Qed.

(** The note of the specification is a value that is present, and is
    written between quotes with its quotes doubled. *)
Lemma escape_quotes_values_only_note :
  isNullish (JStr heSaidHi) = false
  /\ ToString (JStr heSaidHi) = Ok heSaidHi
  /\ Tickets.escape (JStr heSaidHi) = Ok (QUOTE :: replace_quotes heSaidHi ++ [QUOTE]).
Proof.
  split; [reflexivity |].
  split; [reflexivity |].
  exact (proj1 escape_quotes_values_only (JStr heSaidHi) heSaidHi eq_refl eq_refl).
Defined.

(** C4 (counterexample): the cell of a null field, and of a missing one, is
    the empty text; the specification has the two characters of an empty
    quoted field there. *)
Lemma escape_null_is_empty :
  Tickets.escape JNull = Ok []
  /\ Tickets.escape JUndefined = Ok []
  /\ Tickets.escape JNull <> Ok [QUOTE; QUOTE].
Proof.
  repeat split; discriminate.
Qed.

Lemma mapR_fields (fs : list Tickets.Field) :
  Tickets.mapR Tickets.escape (map Tickets.fieldValue fs) = Ok (map cell fs).
Proof.
  induction fs as [| f fs IH]; simpl; [reflexivity |].
  rewrite escape_field, IH. reflexivity.
Qed.

Lemma row_cells (t : Tickets.TicketDoc) :
  Tickets.row t
  = Ok (map cell
          [ Tickets.createdAt t; Tickets.doc_firstName t; Tickets.doc_lastName t;
            Tickets.doc_email t; Tickets.doc_ticketType t; Tickets.doc_quantity t;
            Tickets.doc_notes t ]).
Proof.
  unfold Tickets.row. apply mapR_fields.
Qed.

Lemma mapR_rows (docs : list Tickets.TicketDoc) :
  exists rows, Tickets.mapR Tickets.row docs = Ok rows
               /\ map (join [COMMA]) rows = map line docs.
Proof.
  induction docs as [| t docs (rows & E & M)]; simpl.
  - exists []. split; reflexivity.
  - rewrite row_cells, E. unfold bind. eexists. split; [reflexivity |].
    rewrite map_cons, M. reflexivity.
Qed.

Lemma join_cons (sep h : jsstring) (ls : list jsstring) :
  join sep (h :: ls) = h ++ flat_map (fun l => sep ++ l) ls.
Proof.
  revert h. induction ls as [| l ls IH]; intro h.
  - simpl. symmetry. apply app_nil_r.
  - change (join sep (h :: l :: ls)) with (h ++ sep ++ join sep (l :: ls)).
    rewrite IH. simpl. f_equal. rewrite <- app_assoc. reflexivity.
Qed.

(** The export never fails on stored documents, and is the header line
    followed by a line feed and a line for each document. *)
Lemma csv_lines (docs : list Tickets.TicketDoc) :
  Tickets.csv docs = Ok (headerLine ++ flat_map (fun t => LF :: line t) docs).
Proof.
  unfold Tickets.csv. destruct (mapR_rows docs) as (rows & -> & M).
  unfold bind. rewrite M, join_cons.
  change (join [COMMA] Tickets.header) with headerLine.
  rewrite flat_map_concat_map, map_map, <- flat_map_concat_map.
  reflexivity.
Qed.

(** A quoted text ends with its closing quote, and a line with the closing
    quote of its last cell or, when the last field is missing, with the
    comma before it. *)
Lemma line_last (t : Tickets.TicketDoc) :
  exists pre c, line t = pre ++ [c] /\ c <> LF.
Proof.
  unfold line.
  set (c1 := Tickets.createdAt t). set (c2 := Tickets.doc_firstName t).
  set (c3 := Tickets.doc_lastName t). set (c4 := Tickets.doc_email t).
  set (c5 := Tickets.doc_ticketType t). set (c6 := Tickets.doc_quantity t).
  change (join [COMMA] (map cell [c1; c2; c3; c4; c5; c6; Tickets.doc_notes t]))
    with (cell c1 ++ [COMMA] ++ cell c2 ++ [COMMA] ++ cell c3 ++ [COMMA]
          ++ cell c4 ++ [COMMA] ++ cell c5 ++ [COMMA] ++ cell c6 ++ [COMMA]
          ++ cell (Tickets.doc_notes t)).
  assert (Q : forall s, quoted s = (QUOTE :: replace_quotes s) ++ [QUOTE])
    by reflexivity.
  destruct (Tickets.doc_notes t) as [| s | n | time text]; simpl cell;
    [ rewrite app_nil_r | rewrite Q .. ];
    rewrite !app_assoc; eexists _, _; (split; [reflexivity | discriminate]).
Qed.

(** C5: for every sequence of stored documents the export succeeds; its text
    is the header line, which is the fixed list of the seven names joined by
    commas and holds no line feed, followed for each document in turn by a
    line feed and the line of its seven cells joined by commas.  The text
    does not end with a line feed, and for no documents it is the header
    line alone. *)
Theorem csv_is_header_then_lines (docs : list Tickets.TicketDoc) :
  Tickets.csv docs = Ok (headerLine ++ flat_map (fun t => LF :: line t) docs)
  /\ headerLine = str "createdAt,firstName,lastName,email,ticketType,quantity,notes"
  /\ ~ In LF headerLine
  /\ (forall t, line t
                = join [COMMA]
                    [ cell (Tickets.createdAt t); cell (Tickets.doc_firstName t);
                      cell (Tickets.doc_lastName t); cell (Tickets.doc_email t);
                      cell (Tickets.doc_ticketType t); cell (Tickets.doc_quantity t);
                      cell (Tickets.doc_notes t) ])
  /\ Tickets.csv [] = Ok headerLine
  /\ (exists text c,
        headerLine ++ flat_map (fun t => LF :: line t) docs = text ++ [c]
        /\ c <> LF).
Proof.
  split; [apply csv_lines |].
  split; [reflexivity |].
  split; [vm_compute; intuition discriminate |].
  split; [reflexivity |].
  split; [reflexivity |].
  destruct docs as [| t docs] using rev_ind.
  - exists (str "createdAt,firstName,lastName,email,ticketType,quantity,note"), 115%N.
    split; [reflexivity | discriminate].
  - rewrite flat_map_app. simpl. rewrite app_nil_r.
    destruct (line_last t) as (pre & c & -> & Hc).
    exists (headerLine ++ flat_map (fun t0 => LF :: line t0) docs ++ LF :: pre), c.
    split; [| exact Hc].
    rewrite <- !app_assoc. reflexivity.
Qed.

(** ** Trimming *)

Lemma trimStart_head (s : jsstring) :
  match trimStart s with
  | [] => True
  | c :: _ => isWhiteSpace c = false
  end.
Proof.
  induction s as [| c s IH]; simpl; [exact I |].
  destruct (isWhiteSpace c) eqn:W; [exact IH | exact W].
Qed.

Lemma trimStart_fixed (c : N) (s : jsstring) :
  isWhiteSpace c = false -> trimStart (c :: s) = c :: s.
Proof.
  intro W. simpl. rewrite W. reflexivity.
Qed.

Lemma trimStart_last (l : jsstring) (c : N) :
  isWhiteSpace c = false -> trimStart (l ++ [c]) = trimStart l ++ [c].
Proof.
  intro W. induction l as [| x l IH]; simpl.
  - rewrite W. reflexivity.
  - destruct (isWhiteSpace x); [exact IH | reflexivity].
Qed.

Lemma trimStart_In (s : jsstring) (c : N) : In c (trimStart s) -> In c s.
Proof.
  induction s as [| x s IH]; simpl; [auto |].
  destruct (isWhiteSpace x); simpl; auto.
Qed.

Lemma trim_In (s : jsstring) (c : N) : In c (trim s) -> In c s.
Proof.
  unfold trim, trimEnd. intro H.
  apply in_rev in H. apply trimStart_In in H. apply in_rev in H.
  apply trimStart_In. exact H.
Qed.

Lemma trim_cleanEdges (s : jsstring) : cleanEdges (trim s).
Proof.
  unfold cleanEdges, trim, trimEnd. split.
  - pose proof (trimStart_head s) as H.
    destruct (trimStart s) as [| c u]; [exact I |].
    simpl rev. rewrite (trimStart_last _ c H), rev_app_distr. simpl. exact H.
  - rewrite rev_involutive. apply trimStart_head.
Qed.

Lemma cleanEdges_trim (s : jsstring) : cleanEdges s -> trim s = s.
Proof.
  intros [H1 H2]. unfold trim, trimEnd.
  assert (E : trimStart s = s).
  { destruct s as [| c s]; [reflexivity | apply trimStart_fixed, H1]. }
  rewrite E.
  destruct (rev s) as [| c r] eqn:R.
  - simpl. apply (f_equal (@rev N)) in R. rewrite rev_involutive in R. auto.
  - rewrite (trimStart_fixed c r H2), <- R. apply rev_involutive.
Qed.

Lemma trim_idempotent (s : jsstring) : trim (trim s) = trim s.
Proof.
  apply cleanEdges_trim, trim_cleanEdges.
Qed.

Lemma no_space_cleanEdges (s : jsstring) :
  forallb (fun c => negb (isWhiteSpace c)) s = true -> cleanEdges s.
Proof.
  intro H. rewrite forallb_forall in H. split.
  - destruct s as [| c s]; [exact I |].
    apply negb_true_iff, H. left. reflexivity.
  - destruct (rev s) as [| c r] eqn:R; [exact I |].
    apply negb_true_iff, H, in_rev. rewrite R. left. reflexivity.
Qed.

(** An email of the accepted shape has no white space to trim. *)
Lemma emailShape_trim (s : jsstring) : emailShape s -> trim s = s.
Proof.
  intro H. apply emailShape_claimed in H as (l & d & -> & _ & _ & _ & W & _).
  apply cleanEdges_trim, no_space_cleanEdges.
  rewrite forallb_app in *. simpl.
  apply andb_true_iff in W as [-> ->]. reflexivity.
Qed.

(** ** The origins of [cors] *)

Lemma split_cons (sep : N) (s : jsstring) :
  exists piece pieces, ServerRest.split sep s = piece :: pieces.
Proof.
  induction s as [| c s (p & ps & IH)]; simpl; [eauto |].
  destruct (c =? sep)%N; [eauto |]. rewrite IH. eauto.
Qed.

Lemma split_length (sep : N) (s : jsstring) :
  List.length (ServerRest.split sep s) = S (count_occ N.eq_dec s sep).
Proof.
  induction s as [| c s IH]; simpl; [reflexivity |].
  destruct (N.eqb_spec c sep) as [-> | Hne].
  - destruct (N.eq_dec sep sep); [| congruence]. simpl. rewrite IH. reflexivity.
  - destruct (N.eq_dec c sep); [congruence |].
    destruct (split_cons sep s) as (p & ps & E). rewrite E in *. exact IH.
Qed.

Lemma split_no_separator (sep : N) (s : jsstring) :
  Forall (fun piece => ~ In sep piece) (ServerRest.split sep s).
Proof.
  induction s as [| c s IH]; simpl.
  - constructor; [intros [] | constructor].
  - destruct (N.eqb_spec c sep) as [-> | Hne].
    + constructor; [intros [] | exact IH].
    + destruct (ServerRest.split sep s) as [| p ps].
      * constructor; [| constructor]. intros [E | []]. congruence.
      * inversion IH as [| ? ? Hp Hps]; subst. constructor; [| exact Hps].
        intros [E | H]; [congruence | exact (Hp H)].
Qed.

(** Joining the pieces with the separator gives the text back. *)
Lemma join_split (sep : N) (s : jsstring) :
  join [sep] (ServerRest.split sep s) = s.
Proof.
  induction s as [| c s IH]; simpl; [reflexivity |].
  destruct (N.eqb_spec c sep) as [-> | Hne].
  - destruct (split_cons sep s) as (p & ps & E). rewrite E in *.
    change (join [sep] ([] :: p :: ps)) with ([] ++ [sep] ++ join [sep] (p :: ps)).
    rewrite IH. reflexivity.
  - destruct (split_cons sep s) as (p & ps & E). rewrite E in *.
    destruct ps as [| q qs].
    + simpl in *. rewrite IH. reflexivity.
    + change (join [sep] ((c :: p) :: q :: qs))
        with (c :: (p ++ [sep] ++ join [sep] (q :: qs))).
      change (join [sep] (p :: q :: qs))
        with (p ++ [sep] ++ join [sep] (q :: qs)) in IH.
      rewrite IH. reflexivity.
Qed.

(** The origins that [cors] is given.  Without the variable every origin is
    allowed.  With it, the origins are the pieces of its text between the
    commas, each trimmed: joined by commas the pieces are the text, there is
    one more of them than the text has commas, so that the list is never
    empty, not even for the empty text, which gives the one origin of no
    characters; and no origin holds a comma or has white space at its
    ends. *)
Theorem cors_origins_trimmed_pieces :
  ServerRest.corsOrigin None = ServerRest.AnyOrigin
  /\ ServerRest.corsOrigin (Some []) = ServerRest.Origins [[]]
  /\ forall s,
       exists piece pieces,
         ServerRest.corsOrigin (Some s)
         = ServerRest.Origins (map trim (piece :: pieces))
         /\ join [COMMA] (piece :: pieces) = s
         /\ List.length (piece :: pieces) = S (count_occ N.eq_dec s COMMA)
         /\ Forall (fun o => trim o = o /\ ~ In COMMA o) (map trim (piece :: pieces)).
Proof.
  split; [reflexivity |]. split; [reflexivity |].
  intro s. unfold ServerRest.corsOrigin.
  destruct (split_cons COMMA s) as (p & ps & E).
  exists p, ps. rewrite <- E.
  split; [reflexivity |].
  split; [apply join_split |].
  split; [apply split_length |].
  apply Forall_map.
  eapply Forall_impl; [| apply split_no_separator].
  intros piece H. split; [apply trim_idempotent |].
  intro C. apply H. eapply trim_In. exact C.
Qed.

(** ** The list of the tickets *)

Lemma insert_Permutation (newerFirst : Tickets.Field -> Tickets.Field -> bool)
      (t : Tickets.TicketDoc) (l : list Tickets.TicketDoc) :
  Permutation (Query.insert newerFirst t l) (t :: l).
Proof.
  induction l as [| u l IH]; simpl; [reflexivity |].
  destruct (newerFirst _ _); [reflexivity |].
  rewrite IH. apply perm_swap.
Qed.

Lemma sortNewestFirst_Permutation
      (newerFirst : Tickets.Field -> Tickets.Field -> bool)
      (docs : list Tickets.TicketDoc) :
  Permutation (Query.sortNewestFirst newerFirst docs) docs.
Proof.
  induction docs as [| t docs IH]; simpl; [reflexivity |].
  rewrite insert_Permutation, IH. reflexivity.
Qed.

Section Ordered.

Variable newerFirst : Tickets.Field -> Tickets.Field -> bool.
Hypothesis total : forall a b, newerFirst a b = true \/ newerFirst b a = true.
Hypothesis transitive :
  forall a b c, newerFirst a b = true -> newerFirst b c = true -> newerFirst a c = true.

Lemma insert_StronglySorted (t : Tickets.TicketDoc) (l : list Tickets.TicketDoc) :
  StronglySorted (precedes newerFirst) l ->
  StronglySorted (precedes newerFirst) (Query.insert newerFirst t l).
Proof.
  induction 1 as [| u l S IH F]; simpl.
  - constructor; constructor.
  - destruct (newerFirst (Tickets.createdAt t) (Tickets.createdAt u)) eqn:E.
    + constructor; [constructor; assumption |].
      constructor; [exact E |].
      eapply Forall_impl; [| exact F].
      intros v H. eapply transitive; [exact E | exact H].
    + constructor; [exact IH |].
      eapply Permutation_Forall; [symmetry; apply insert_Permutation |].
      constructor; [| exact F].
      destruct (total (Tickets.createdAt t) (Tickets.createdAt u)) as [C | C];
        [congruence | exact C].
Qed.

Lemma sortNewestFirst_StronglySorted (docs : list Tickets.TicketDoc) :
  StronglySorted (precedes newerFirst) (Query.sortNewestFirst newerFirst docs).
Proof.
  induction docs as [| t docs IH]; simpl; [constructor |].
  apply insert_StronglySorted. exact IH.
Qed.

End Ordered.

Lemma StronglySorted_app {A : Type} (R : A -> A -> Prop) (l1 l2 : list A) :
  StronglySorted R (l1 ++ l2) ->
  StronglySorted R l1 /\ Forall (fun a => Forall (R a) l2) l1.
Proof.
  induction l1 as [| a l1 IH]; simpl; intro S.
  - split; constructor.
  - inversion S as [| ? ? S' F]; subst. destruct (IH S') as [S1 F1].
    apply Forall_app in F as [Fa Fb].
    split; constructor; assumption.
Qed.

(** GET /api/tickets.  When the documents can be read, and the order of
    [createdAt] is total and transitive, the answer is 200 with the first
    fifty documents of the collection in that order: as many as there are
    when there are fewer, each standing before those that follow it, and
    each before every document that is left out; shown and left out together
    are the collection, nothing is answered twice.  When they cannot be
    read, the answer is 500 with the message. *)
Theorem list_is_newest_fifty
        (Store : Type) (newerFirst : Tickets.Field -> Tickets.Field -> bool)
        (Ticket_find : Store -> Result (list Tickets.TicketDoc)) (db : Store) :
  (forall a b, newerFirst a b = true \/ newerFirst b a = true) ->
  (forall a b c,
      newerFirst a b = true -> newerFirst b c = true -> newerFirst a c = true) ->
  match Ticket_find db with
  | Ok docs =>
      exists shown omitted,
        ServerRest.get_api_tickets newerFirst Ticket_find db
        = ServerRest.mkListResponse 200 (ServerRest.Docs shown)
        /\ Permutation (shown ++ omitted) docs
        /\ List.length shown = Nat.min 50 (List.length docs)
        /\ StronglySorted (precedes newerFirst) shown
        /\ Forall (fun t => Forall (precedes newerFirst t) omitted) shown
  | Throw _ =>
      ServerRest.get_api_tickets newerFirst Ticket_find db
      = ServerRest.mkListResponse 500
          (ServerRest.ListFailed (str "Error fetching tickets"))
  end.
Proof.
  intros total transitive. unfold ServerRest.get_api_tickets.
  destruct (Ticket_find db) as [docs | e]; [| reflexivity].
  exists (firstn 50 (Query.sortNewestFirst newerFirst docs)),
         (skipn 50 (Query.sortNewestFirst newerFirst docs)).
  split; [reflexivity |].
  split; [rewrite firstn_skipn; apply sortNewestFirst_Permutation |].
  split.
  { rewrite length_firstn.
    rewrite (Permutation_length (sortNewestFirst_Permutation newerFirst docs)).
    reflexivity. }
  apply StronglySorted_app. rewrite firstn_skipn.
  apply sortNewestFirst_StronglySorted; assumption.
Qed.

Lemma laterFirst_total (a b : Tickets.Field) :
  laterFirst a b = true \/ laterFirst b a = true.
Proof.
  unfold laterFirst. rewrite !Qle_bool_iff.
  destruct (Qlt_le_dec (timeOf a) (timeOf b)) as [H | H];
    [right; apply Qlt_le_weak; exact H | left; exact H].
Qed.

Lemma laterFirst_transitive (a b c : Tickets.Field) :
  laterFirst a b = true -> laterFirst b c = true -> laterFirst a c = true.
Proof.
  unfold laterFirst. rewrite !Qle_bool_iff. intros H1 H2.
  eapply Qle_trans; eassumption.
Qed.

(** Three documents, read in the order of the times 1, 3 and 2, are listed
    with the latest first. *)
Lemma list_is_newest_fifty_three :
  exists shown omitted,
    ServerRest.get_api_tickets laterFirst
      (fun _ : unit => Ok [createdOn 1 (str "a"); createdOn 3 (str "c");
                           createdOn 2 (str "b")]) tt
    = ServerRest.mkListResponse 200 (ServerRest.Docs shown)
    /\ Permutation (shown ++ omitted)
         [createdOn 1 (str "a"); createdOn 3 (str "c"); createdOn 2 (str "b")]
    /\ List.length shown = 3%nat
    /\ StronglySorted (precedes laterFirst) shown
    /\ Forall (fun t => Forall (precedes laterFirst t) omitted) shown.
Proof.
  exact (list_is_newest_fifty unit laterFirst
           (fun _ : unit => Ok [createdOn 1 (str "a"); createdOn 3 (str "c");
                                createdOn 2 (str "b")]) tt
           laterFirst_total laterFirst_transitive).
Defined.

(** ** The first handler of tickets.js *)

Lemma truthy_string (v : JsValue) :
  negb (truthy v) || negb (isString v) = false -> exists s, v = JStr s /\ s <> [].
Proof.
  destruct v as [| | b | n | [| c s] | | |]; simpl;
    rewrite ?orb_true_r; try discriminate.
  intros _. exists (c :: s). split; [reflexivity | discriminate].
Qed.

Lemma strictEmailBad_false (v : JsValue) :
  strictEmailBad v = false -> exists em, v = JStr em /\ emailShape em.
Proof.
  destruct v as [| | b | n | em | | |]; simpl; try discriminate.
  intro H. apply negb_false_iff in H. exists em.
  split; [reflexivity | apply emailPattern_shape; exact H].
Qed.

Lemma strictQuantityOk_true (v : JsValue) :
  strictQuantityOk v = true -> exists q, v = JNum (Fin q) /\ (1 <= q /\ q <= 20)%Q.
Proof.
  destruct v as [| | b | [| | | q] | s | | |]; simpl; try discriminate.
  intro H. apply andb_true_iff in H as [H1 H2].
  apply Qle_bool_iff in H1, H2. exists q. auto.
Qed.

(** POST /api/tickets as lines 88 to 116 have it.  The validation never
    throws.  With errors the answer is 400 with the list, and the collection
    is untouched.  Without errors the names and the email are non-empty
    strings, the email of the shape of the pattern, the ticket type one of
    [allowedTickets] and the quantity a number from 1 to 20; then notes that
    are neither a string nor missing make the call of [trim] throw, which is
    answered 500 with the collection untouched, and otherwise
    [Ticket.create] gets the names and notes trimmed and the email and the
    quantity as they were sent, and decides between 201 and 500. *)
Theorem strict_post_answers
        (Store ObjectId : Type)
        (Ticket_create : TicketInput -> Store -> Result ObjectId * Store)
        (body : Submission) (db : Store) :
  exists errors,
    Tickets.validate body = Ok errors
    /\ match errors with
       | _ :: _ =>
           TicketsRest.post_api_tickets Ticket_create body db
           = (mkResponse 400
                (ValidationFailed ObjectId (str "Validation failed") errors), db)
       | [] =>
           exists fn ln em q,
             (firstName body = JStr fn /\ fn <> [])
             /\ (lastName body = JStr ln /\ ln <> [])
             /\ (email body = JStr em /\ emailShape em)
             /\ includes Tickets.allowedTickets (ticketType body) = true
             /\ (quantity body = JNum (Fin q) /\ (1 <= q /\ q <= 20)%Q)
             /\ TicketsRest.post_api_tickets Ticket_create body db
                = if stringOrMissing (notes body)
                  then answerOf
                         (Ticket_create
                            (mkTicketInput (trim fn) (trim ln) em (ticketType body)
                               (Fin q) (trim (notesText (notes body)))) db)
                  else (mkResponse 500
                          (Message ObjectId (str "Error saving ticket")), db)
       end.
Proof.
  exists (reported (strictChecks body)).
  split; [apply strict_validate_reported |].
  unfold TicketsRest.post_api_tickets, TicketsRest.post_api_tickets_try.
  rewrite strict_validate_reported.
  destruct (reported (strictChecks body)) as [| e errors] eqn:R; [| reflexivity].
  apply reported_nil in R. unfold strictChecks in R. cbn [forallb fst] in R.
  rewrite !andb_true_iff, !negb_true_iff in R.
  destruct R as (Hfn & Hln & Hem & Htt & Hq & _).
  apply truthy_string in Hfn as (fn & Efn & Nfn).
  apply truthy_string in Hln as (ln & Eln & Nln).
  apply strictEmailBad_false in Hem as (em & Eem & Sem).
  apply negb_false_iff in Hq. apply strictQuantityOk_true in Hq as (q & Eq & Rq).
  apply orb_false_iff in Htt as [_ Htt]. apply negb_false_iff in Htt.
  exists fn, ln, em, q.
  split; [auto |]. split; [auto |]. split; [auto |]. split; [exact Htt |].
  split; [auto |].
  unfold TicketsRest.ticketInput. rewrite Efn, Eln, Eem, Eq.
  cbn [call_trim ToNumber bind]. rewrite (emailShape_trim em Sem).
  destruct (notes body) as [| | b | n | s | | |]; cbn;
    try reflexivity;
    destruct (Ticket_create _ db) as [[id |] db']; reflexivity.
Qed.

(** ** The handler of tickets.js that sends the emails *)

Lemma blank_false (v : JsValue) :
  Tickets.blank v = Ok false <-> exists s, v = JStr s /\ trim s <> [].
Proof.
  unfold Tickets.blank. split.
  - destruct v as [| | [|] | [| | | q] | [| c s] | | |]; simpl;
      try discriminate;
      try (destruct (Qeq_bool q 0); discriminate).
    intro H. exists (c :: s). split; [reflexivity |].
    destruct (trim (c :: s)); [discriminate H | discriminate].
  - intros (s & -> & H). destruct s as [| c s]; [elim H; reflexivity |].
    simpl. destruct (trim (c :: s)); [elim H; reflexivity | reflexivity].
Qed.

Lemma validateNested_checks (body : Submission) :
  Tickets.validateNested body = Ok []
  <-> Tickets.blank (firstName body) = Ok false
      /\ Tickets.blank (lastName body) = Ok false
      /\ Tickets.blank (email body) = Ok false
      /\ truthy (ticketType body) = true
      /\ truthy (quantity body) = true
      /\ exists n, ToNumber (quantity body) = Ok n /\ ltb n (ofZ 1) = false.
Proof.
  unfold Tickets.validateNested, push.
  destruct (Tickets.blank (firstName body)) as [[|] | e1];
    destruct (Tickets.blank (lastName body)) as [[|] | e2];
    destruct (Tickets.blank (email body)) as [[|] | e3];
    destruct (truthy (ticketType body));
    destruct (truthy (quantity body));
    destruct (ToNumber (quantity body)) as [n | e4];
    cbn [bind negb];
    try destruct (ltb n (ofZ 1)) eqn:L;
    cbn [bind negb app];
    (split;
     [ intro H; first [ discriminate H | repeat (split; [reflexivity |]); eauto ]
     | intros (H1 & H2 & H3 & H4 & H5 & n' & H6 & H7); congruence ]).
Qed.

(** The validator of lines 230 to 235 reports nothing exactly when the two
    names and the email are strings with something other than white space in
    them, the ticket type and the quantity are truthy, and [Number(quantity)]
    does not throw and is not below 1: it asks neither for the shape of an
    email, nor for a ticket type of [allowedTickets], nor for a quantity that
    is a finite number or at most 20. *)
Theorem nested_validator_accepts (body : Submission) :
  Tickets.validateNested body = Ok []
  <-> (exists fn, firstName body = JStr fn /\ trim fn <> [])
      /\ (exists ln, lastName body = JStr ln /\ trim ln <> [])
      /\ (exists em, email body = JStr em /\ trim em <> [])
      /\ truthy (ticketType body) = true
      /\ truthy (quantity body) = true
      /\ exists n, ToNumber (quantity body) = Ok n /\ ltb n (ofZ 1) = false.
Proof.
  rewrite validateNested_checks, !blank_false. reflexivity.
Qed.

Lemma included_truthy (arr : list jsstring) (v : JsValue) :
  ~ In [] arr -> includes arr v = true -> truthy v = true.
Proof.
  intros N I. destruct v as [| | | | [| c s] | | |]; try discriminate I.
  - unfold includes in I. apply existsb_exists in I as (x & Hx & E).
    apply jsstring_eqb_eq in E. subst x. contradiction.
  - reflexivity.
Qed.

Lemma accepted_quantity_truthy (q : JsValue) (n : JsNum) :
  ToNumber q = Ok n -> Server.quantityRejected n = false -> truthy q = true.
Proof.
  intros E R. apply quantityRejected_false in R as (x & -> & [Lo Hi]).
  assert (N0 : ~ (1 <= 0)%Q) by (intro H; apply H; reflexivity).
  destruct q as [| | [|] | [| | | y] | [| c s] | | |]; try reflexivity;
    try discriminate E.
  - injection E as <-. contradiction.
  - injection E as <-. contradiction.
  - injection E as ->. simpl. apply negb_true_iff.
    destruct (Qeq_bool x 0) eqn:Z; [| reflexivity].
    apply Qeq_bool_iff in Z. rewrite Z in Lo. contradiction.
  - vm_compute in E. injection E as <-. contradiction.
Qed.

(** A submission that the validator of server.js accepts, and whose names
    are strings with more than white space in them and whose email is a
    string, is accepted by the validator of lines 230 to 235 as well. *)
Theorem nested_validator_weaker (body : Submission) (fn ln : jsstring) (n : JsNum) :
  Server.validate body = Ok ([], n) ->
  firstName body = JStr fn -> trim fn <> [] ->
  lastName body = JStr ln -> trim ln <> [] ->
  isString (email body) = true ->
  Tickets.validateNested body = Ok [].
Proof.
  intros V Efn Nfn Eln Nln Sem.
  rewrite validate_reported in V.
  destruct (email body) as [| | | | em | | |] eqn:Eem; try discriminate Sem.
  rewrite emailRejected_string in V. cbn [bind] in V.
  destruct (ToNumber (quantity body)) as [m |] eqn:Q; [| discriminate V].
  cbn [bind] in V. injection V as R ->.
  apply reported_nil in R. unfold checks in R. cbn [forallb fst] in R.
  rewrite !andb_true_iff, !negb_true_iff in R.
  destruct R as (_ & _ & Hem & Htt & Hq & _).
  apply negb_false_iff in Hem, Htt.
  apply emailPattern_shape in Hem.
  rewrite validateNested_checks, !blank_false, Efn, Eln, Eem.
  split; [eauto |]. split; [eauto |].
  split; [exists em; split; [reflexivity |]; rewrite (emailShape_trim em Hem);
          destruct Hem as (l & d1 & d2 & -> & Nl & _); destruct l; [congruence | discriminate] |].
  split; [eapply included_truthy; [| exact Htt]; vm_compute; intuition discriminate |].
  split; [eapply accepted_quantity_truthy; eassumption |].
  exists n. split; [exact Q |].
  apply quantityRejected_false in Hq as (x & -> & [Lo Hi]).
  unfold ltb, ofZ. apply negb_false_iff, Qle_bool_iff. exact Lo.
Qed.

(** A submission with spaces around its first name passes both. *)
Lemma nested_validator_weaker_padded :
  Server.validate paddedSubmission = Ok ([], ofZ 2)
  /\ Tickets.validateNested paddedSubmission = Ok [].
Proof.
  assert (V : Server.validate paddedSubmission = Ok ([], ofZ 2))
    by (vm_compute; reflexivity).
  split; [exact V |].
  apply (nested_validator_weaker paddedSubmission (str " Ann ") (str "Lee") (ofZ 2));
    [ exact V | reflexivity | vm_compute; discriminate | reflexivity
    | vm_compute; discriminate | reflexivity ].
Defined.

(** ** The emails *)

Lemma show_total (f : Tickets.Field) : exists s, TicketsRest.show f = Ok s.
Proof.
  destruct f; eexists; reflexivity.
Qed.

Lemma orElse_none_total (f : Tickets.Field) :
  exists s,
    ToString (TicketsRest.orElse (Tickets.fieldValue f) (JStr (str "(none)"))) = Ok s.
Proof.
  unfold TicketsRest.orElse.
  destruct (truthy (Tickets.fieldValue f));
    [apply show_total | eexists; reflexivity].
Qed.

Lemma summary_trimmed (ticket : Tickets.TicketDoc) :
  exists text, TicketsRest.summary ticket = Ok text /\ trim text = text.
Proof.
  unfold TicketsRest.summary.
  destruct (show_total (Tickets.doc_firstName ticket)) as [fn ->].
  destruct (show_total (Tickets.doc_lastName ticket)) as [ln ->].
  destruct (show_total (Tickets.doc_email ticket)) as [em ->].
  destruct (show_total (Tickets.doc_ticketType ticket)) as [tt ->].
  destruct (show_total (Tickets.doc_quantity ticket)) as [qty ->].
  destruct (orElse_none_total (Tickets.doc_notes ticket)) as [nt ->].
  destruct (show_total (Tickets.createdAt ticket)) as [at_ ->].
  cbn [bind]. eexists. split; [reflexivity | apply trim_idempotent].
Qed.

(** [sendTicketEmails] on a stored document.  Building the two mails never
    throws, so that only the transporter can make it fail.  The mail to the
    guest goes to the email of the document, from the address of the
    environment or else [tickets@example.com], and its text is the greeting,
    the summary and the closing; the summary has no white space at its ends.
    It is sent first, and when sending it fails nothing else is sent.  A
    mail to the administrator is sent after it only when [ADMIN_EMAIL] is
    set and not empty: to that address, from the same sender, its text the
    summary alone. *)
Theorem ticket_emails_guest_then_admin
        (World : Type) (sendMail : TicketsRest.Mail -> World -> Result unit * World)
        (TICKETS_FROM ADMIN_EMAIL : option jsstring)
        (ticket : Tickets.TicketDoc) (w : World) :
  exists guest text,
    TicketsRest.summary ticket = Ok text
    /\ trim text = text
    /\ TicketsRest.mail_from guest
       = TicketsRest.envOr TICKETS_FROM (str "tickets@example.com")
    /\ TicketsRest.mail_to guest = Tickets.fieldValue (Tickets.doc_email ticket)
    /\ (exists fn,
          TicketsRest.show (Tickets.doc_firstName ticket) = Ok fn
          /\ TicketsRest.mail_text guest
             = (TicketsRest.greeting fn ++ text ++ TicketsRest.closing)%list)
    /\ match sendMail guest w with
       | (Throw e, w') =>
           TicketsRest.sendTicketEmails sendMail TICKETS_FROM ADMIN_EMAIL ticket w
           = (Throw e, w')
       | (Ok _, w') =>
           match ADMIN_EMAIL with
           | Some (c :: s) =>
               exists admin,
                 TicketsRest.mail_to admin = JStr (c :: s)
                 /\ TicketsRest.mail_from admin = TicketsRest.mail_from guest
                 /\ TicketsRest.mail_text admin = text
                 /\ TicketsRest.sendTicketEmails sendMail TICKETS_FROM ADMIN_EMAIL
                      ticket w
                    = sendMail admin w'
           | _ =>
               TicketsRest.sendTicketEmails sendMail TICKETS_FROM ADMIN_EMAIL ticket w
               = (Ok tt, w')
           end
       end.
Proof.
  destruct (summary_trimmed ticket) as (text & S & T).
  destruct (show_total (Tickets.doc_firstName ticket)) as [fn Efn].
  destruct (show_total (Tickets.doc_lastName ticket)) as [ln Eln].
  unfold TicketsRest.sendTicketEmails, TicketsRest.userMail, TicketsRest.adminMail.
  rewrite S, Efn, Eln. cbn [bind].
  exists (TicketsRest.mkMail
            (TicketsRest.envOr TICKETS_FROM (str "tickets@example.com"))
            (Tickets.fieldValue (Tickets.doc_email ticket))
            (str "Your Amped Up 26 Ticket Reservation " ++ TicketsRest.SPARKLES)%list
            (TicketsRest.greeting fn ++ text ++ TicketsRest.closing)%list), text.
  split; [reflexivity |]. split; [exact T |].
  split; [reflexivity |]. split; [reflexivity |].
  split; [exists fn; split; reflexivity |].
  destruct ADMIN_EMAIL as [[| c s] |]; cbn [bind].
  - destruct (sendMail _ w) as [[[] | e] w']; reflexivity.
  - destruct (sendMail _ w) as [[[] | e] w']; [| reflexivity].
    eexists (TicketsRest.mkMail _ _ _ _).
    split; [reflexivity |]. split; [reflexivity |]. split; reflexivity.
  - destruct (sendMail _ w) as [[[] | e] w']; reflexivity.
Qed.

(** ** The emails of a request *)

(** POST /api/tickets as lines 225 to 266 have it does not wait for the
    emails: the answer and the collection are the same whatever the
    transporter does and whatever the addresses of the environment are.  The
    emails are sent for no request but one that is answered 201, and then
    for the document that [Ticket.create] resolved to; an answer of 400
    leaves the collection as it was. *)
Theorem nested_post_mails_after_save
        (Store ObjectId World : Type)
        (Ticket_create :
           TicketInput -> Store -> Result (ObjectId * Tickets.TicketDoc) * Store)
        (sendMail sendMail' : TicketsRest.Mail -> World -> Result unit * World)
        (TICKETS_FROM ADMIN_EMAIL TICKETS_FROM' ADMIN_EMAIL' : option jsstring)
        (body : Submission) (db : Store) (w w' : World) :
  fst (TicketsRest.post_nested sendMail TICKETS_FROM ADMIN_EMAIL Ticket_create body db w)
  = fst (TicketsRest.post_nested sendMail' TICKETS_FROM' ADMIN_EMAIL' Ticket_create
           body db w')
  /\ ((exists input id ticket db',
         TicketsRest.ticketInput body = Ok input
         /\ Ticket_create input db = (Ok (id, ticket), db')
         /\ TicketsRest.post_nested sendMail TICKETS_FROM ADMIN_EMAIL Ticket_create
              body db w
            = (mkResponse 201 (Saved (str "Saved") id), db',
               snd (TicketsRest.sendTicketEmails sendMail TICKETS_FROM ADMIN_EMAIL
                      ticket w)))
      \/ (exists response db',
            TicketsRest.post_nested sendMail TICKETS_FROM ADMIN_EMAIL Ticket_create
              body db w
            = (response, db', w)
            /\ (status response = 400%N /\ db' = db \/ status response = 500%N))).
Proof.
  unfold TicketsRest.post_nested, TicketsRest.post_nested_try.
  destruct (Tickets.validateNested body) as [[| e errors] | x].
  - destruct (TicketsRest.ticketInput body) as [input | x].
    + destruct (Ticket_create input db) as [[[id ticket] | x] db'] eqn:C.
      * split; [reflexivity |]. left. exists input, id, ticket, db'.
        split; [reflexivity |]. split; [exact C | reflexivity].
      * split; [reflexivity |]. right. eexists _, _.
        split; [reflexivity | right; reflexivity].
    + split; [reflexivity |]. right. eexists _, _.
      split; [reflexivity | right; reflexivity].
  - split; [reflexivity |]. right. eexists _, _.
    split; [reflexivity | left; split; reflexivity].
  - split; [reflexivity |]. right. eexists _, _.
    split; [reflexivity | right; reflexivity].
Qed.

(** ** Reading the export back *)

Lemma readChars_app (r : Reader) (s1 s2 : jsstring) :
  readChars r (s1 ++ s2)
  = match readChars r s1 with
    | Some r' => readChars r' s2
    | None => None
    end.
Proof.
  revert r. induction s1 as [| c s1 IH]; intro r; simpl; [reflexivity |].
  destruct (readChar r c) as [r' |]; [apply IH | reflexivity].
Qed.

Lemma readChars_quoted_text (rows : list (list Cell)) (cells : list Cell)
      (acc s : jsstring) :
  readChars (mkReader rows cells (InQuoted acc)) (replace_quotes s)
  = Some (mkReader rows cells (InQuoted (acc ++ s))).
Proof.
  revert acc. induction s as [| c s IH]; intro acc.
  - simpl. rewrite app_nil_r. reflexivity.
  - change (replace_quotes (c :: s))
      with ((if (c =? QUOTE)%N then [QUOTE; QUOTE] else [c]) ++ replace_quotes s).
    rewrite readChars_app.
    destruct (N.eqb_spec c QUOTE) as [-> | Hc].
    + cbn -[replace_quotes]. unfold inMode. cbn -[replace_quotes].
      rewrite IH, <- app_assoc. reflexivity.
    + cbn -[replace_quotes]. unfold readChar, inMode. cbn -[replace_quotes].
      apply N.eqb_neq in Hc. rewrite Hc.
      rewrite IH, <- app_assoc. reflexivity.
Qed.

(** After the cell of a field the reader holds what [cellOf] says. *)
Lemma readChars_cell (rows : list (list Cell)) (cells : list Cell) (f : Tickets.Field) :
  exists m,
    readChars (mkReader rows cells AtStart) (cell f) = Some (mkReader rows cells m)
    /\ pendingCell m = Some (cellOf f).
Proof.
  assert (Q : forall s,
             readChars (mkReader rows cells AtStart) (quoted s)
             = Some (mkReader rows cells (AfterQuote s))).
  { intro s. unfold quoted.
    change (QUOTE :: replace_quotes s ++ [QUOTE])
      with ([QUOTE] ++ replace_quotes s ++ [QUOTE]).
    rewrite readChars_app. cbn -[replace_quotes]. unfold inMode.
    cbn -[replace_quotes].
    rewrite readChars_app, readChars_quoted_text. reflexivity. }
  destruct f as [| s | n | time text]; simpl cell.
  - exists AtStart. split; reflexivity.
  - eexists. split; [apply Q | reflexivity].
  - eexists. split; [apply Q | reflexivity].
  - eexists. split; [apply Q | reflexivity].
Qed.

Lemma readChar_comma (r : Reader) (c : Cell) :
  pendingCell (read_mode r) = Some c -> readChar r COMMA = Some (endCell r c).
Proof.
  unfold readChar. destruct (read_mode r); simpl; intro H;
    try discriminate H; injection H as <-; reflexivity.
Qed.

Lemma readChar_LF (r : Reader) (c : Cell) :
  pendingCell (read_mode r) = Some c ->
  readChar r LF = Some (mkReader (endRow r c) [] AtStart).
Proof.
  unfold readChar. destruct (read_mode r); simpl; intro H;
    try discriminate H; injection H as <-; reflexivity.
Qed.

(** A cell and the comma after it. *)
Lemma readChars_cell_comma (rows : list (list Cell)) (cells : list Cell)
      (f : Tickets.Field) (rest : jsstring) :
  readChars (mkReader rows cells AtStart) (cell f ++ [COMMA] ++ rest)
  = readChars (mkReader rows (cells ++ [cellOf f]) AtStart) rest.
Proof.
  rewrite readChars_app.
  destruct (readChars_cell rows cells f) as (m & -> & P).
  simpl app. cbn [readChars].
  rewrite (readChar_comma (mkReader rows cells m) (cellOf f) P). reflexivity.
Qed.

Lemma readChars_line (rows : list (list Cell)) (t : Tickets.TicketDoc) :
  exists r,
    readChars (mkReader rows [] AtStart) (line t) = Some r
    /\ exists c, pendingCell (read_mode r) = Some c
                 /\ endRow r c = rows ++ [cellsOf t].
Proof.
  unfold line.
  set (c1 := Tickets.createdAt t). set (c2 := Tickets.doc_firstName t).
  set (c3 := Tickets.doc_lastName t). set (c4 := Tickets.doc_email t).
  set (c5 := Tickets.doc_ticketType t). set (c6 := Tickets.doc_quantity t).
  set (c7 := Tickets.doc_notes t).
  change (join [COMMA] (map cell [c1; c2; c3; c4; c5; c6; c7]))
    with (cell c1 ++ [COMMA] ++ cell c2 ++ [COMMA] ++ cell c3 ++ [COMMA]
          ++ cell c4 ++ [COMMA] ++ cell c5 ++ [COMMA] ++ cell c6 ++ [COMMA]
          ++ cell c7).
  rewrite !readChars_cell_comma.
  destruct (readChars_cell rows
              ([] ++ [cellOf c1] ++ [cellOf c2] ++ [cellOf c3] ++ [cellOf c4]
               ++ [cellOf c5] ++ [cellOf c6]) c7) as (m & E & P).
  simpl app in *. rewrite E. eexists. split; [reflexivity |].
  exists (cellOf c7). split; [exact P | reflexivity].
Qed.

Lemma readChars_lines (docs : list Tickets.TicketDoc) (r : Reader) (c : Cell) :
  pendingCell (read_mode r) = Some c ->
  exists r',
    readChars r (flat_map (fun t => LF :: line t) docs) = Some r'
    /\ exists c', pendingCell (read_mode r') = Some c'
                  /\ endRow r' c' = endRow r c ++ map cellsOf docs.
Proof.
  revert r c. induction docs as [| t docs IH]; intros r c P.
  - exists r. split; [reflexivity |]. exists c. split; [exact P |].
    simpl. symmetry. apply app_nil_r.
  - change (flat_map (fun t0 => LF :: line t0) (t :: docs))
      with ([LF] ++ line t ++ flat_map (fun t0 => LF :: line t0) docs).
    rewrite readChars_app. cbn [readChars]. rewrite (readChar_LF r c P).
    rewrite readChars_app.
    destruct (readChars_line (endRow r c) t) as (r1 & -> & c1 & P1 & E1).
    destruct (IH r1 c1 P1) as (r' & E' & c' & P' & R').
    exists r'. split; [exact E' |]. exists c'. split; [exact P' |].
    rewrite R', E1, <- app_assoc. reflexivity.
Qed.

Lemma readCsv_export (docs : list Tickets.TicketDoc) :
  readCsv (headerLine ++ flat_map (fun t => LF :: line t) docs)
  = Some (map Bare Tickets.header :: map cellsOf docs).
Proof.
  unfold readCsv. rewrite readChars_app.
  set (r0 := mkReader []
               (map Bare [ str "createdAt"; str "firstName"; str "lastName";
                           str "email"; str "ticketType"; str "quantity" ])
               (InBare (str "notes"))).
  replace (readChars (mkReader [] [] AtStart) headerLine) with (Some r0)
    by (vm_compute; reflexivity).
  destruct (readChars_lines docs r0 (Bare (str "notes")) eq_refl)
    as (r' & -> & c' & P' & E').
  rewrite P'. simpl option_map. rewrite E'. reflexivity.
Qed.

(** The export can be read back.  A reader of CSV finds in the text of the
    export first the seven names of the header, then for each document in
    turn its seven fields, each as a quoted cell with the text that [String]
    gives for its value, whatever commas, line feeds and double quotes that
    text holds, or as an empty bare cell when the field is missing; hence
    two exports with the same text come from documents with the same
    cells. *)
Theorem csv_reads_back (docs : list Tickets.TicketDoc) :
  exists text,
    Tickets.csv docs = Ok text
    /\ readCsv text = Some (map Bare Tickets.header :: map cellsOf docs)
    /\ forall docs',
         Tickets.csv docs' = Ok text -> map cellsOf docs' = map cellsOf docs.
Proof.
  exists (headerLine ++ flat_map (fun t => LF :: line t) docs).
  split; [apply csv_lines |]. split; [apply readCsv_export |].
  intros docs' E. rewrite csv_lines in E. injection E as E.
  pose proof (readCsv_export docs') as R'. rewrite E, readCsv_export in R'.
  injection R' as R'. symmetry. exact R'.
Qed.

(** A document whose note holds a comma, a line feed and a double quote is
    read back with that note in one cell. *)
Lemma csv_reads_back_awkward :
  exists text,
    Tickets.csv [awkwardTicket] = Ok text
    /\ readCsv text
       = Some [ map Bare Tickets.header;
                [ Quoted epochText; Quoted (str "Ann");
                  Quoted (str "Lee"); Quoted (str "a@b.co");
                  Quoted (str "VIP Pass"); Quoted (str "2"); Quoted awkwardNote ] ].
Proof.
  destruct (csv_reads_back [awkwardTicket]) as (text & E & R & _).
  exists text. split; [exact E | exact R].
Defined.

(** ** The handler of the export *)

(** GET /api/tickets/export.  When the documents can be read, the answer is
    200 with the type [text/csv], the header of an attachment named
    [tickets.csv], and a text in which a reader of CSV finds the header and
    then every document of the collection, none left out and none twice, in
    the order of [createdAt] when that order is total and transitive:
    building the text does not fail.  When they cannot be read, the answer
    is 500 with the message. *)
Theorem export_is_whole_collection
        (Store : Type) (newerFirst : Tickets.Field -> Tickets.Field -> bool)
        (Ticket_find : Store -> Result (list Tickets.TicketDoc)) (db : Store) :
  (forall a b, newerFirst a b = true \/ newerFirst b a = true) ->
  (forall a b c,
      newerFirst a b = true -> newerFirst b c = true -> newerFirst a c = true) ->
  match Ticket_find db with
  | Ok docs =>
      exists text sorted,
        TicketsRest.get_api_tickets_export newerFirst Ticket_find db
        = (200%N,
           TicketsRest.CsvFile (str "text/csv")
             (str "attachment; filename=" ++ [QUOTE] ++ str "tickets.csv" ++ [QUOTE])
             text)
        /\ readCsv text = Some (map Bare Tickets.header :: map cellsOf sorted)
        /\ Permutation sorted docs
        /\ StronglySorted (precedes newerFirst) sorted
  | Throw _ =>
      TicketsRest.get_api_tickets_export newerFirst Ticket_find db
      = (500%N, TicketsRest.ExportFailed (str "Error exporting tickets"))
  end.
Proof.
  intros total transitive. unfold TicketsRest.get_api_tickets_export.
  destruct (Ticket_find db) as [docs | e]; [| reflexivity].
  cbn [bind]. rewrite csv_lines.
  eexists _, (Query.sortNewestFirst newerFirst docs).
  split; [reflexivity |]. split; [apply readCsv_export |].
  split; [apply sortNewestFirst_Permutation |].
  apply sortNewestFirst_StronglySorted; assumption.
Qed.

(** Two documents, read in the order of the times 1 and 2, are exported
    with the later one first. *)
Lemma export_is_whole_collection_two :
  exists text sorted,
    TicketsRest.get_api_tickets_export laterFirst
      (fun _ : unit => Ok [createdOn 1 (str "a"); createdOn 2 (str "b")]) tt
    = (200%N,
       TicketsRest.CsvFile (str "text/csv")
         (str "attachment; filename=" ++ [QUOTE] ++ str "tickets.csv" ++ [QUOTE])
         text)
    /\ readCsv text = Some (map Bare Tickets.header :: map cellsOf sorted)
    /\ Permutation sorted [createdOn 1 (str "a"); createdOn 2 (str "b")]
    /\ StronglySorted (precedes laterFirst) sorted.
Proof.
  exact (export_is_whole_collection unit laterFirst
           (fun _ : unit => Ok [createdOn 1 (str "a"); createdOn 2 (str "b")]) tt
           laterFirst_total laterFirst_transitive).
Defined.

(** ** From the request to the collection *)

Lemma validNumber_quantity (n : JsNum) :
  Server.quantityRejected n = false ->
  validNumber (path_quantity ticketSchema) n = true.
Proof.
  intro R. apply quantityRejected_false in R as (q & -> & [Lo Hi]).
  unfold validNumber, geb, leb, ofZ. simpl.
  apply andb_true_iff. split; apply Qle_bool_iff; assumption.
Qed.

Lemma validString_ticketType (tt : JsValue) :
  includes Server.allowedTickets tt = true ->
  exists s, tt = JStr s /\ validString (path_ticketType ticketSchema) s = true.
Proof.
  destruct tt as [| | | | s | | |]; try discriminate. intro I.
  exists s. split; [reflexivity |].
  unfold validString. cbn [required maxlength enum path_ticketType ticketSchema].
  unfold includes in I. rewrite I, andb_true_r, andb_true_r.
  apply negb_true_iff. destruct s as [| c s]; [| reflexivity].
  vm_compute in I. discriminate I.
Qed.

(** POST /api/tickets of server.js with the model behind it.  A submission
    that passes the validation, with strings for its names and its email and
    notes that are a string or missing, is inserted exactly when the schema
    is met as well: the names more than white space and at most 80 code
    units once trimmed, the lower-cased email at most 160, the trimmed notes
    at most 1000.  The document inserted then has the names and notes
    trimmed once, the email lower-cased, the ticket type as sent and the
    quantity as a number, and the insertion decides between 201 and 500.
    Otherwise the answer is 500 and nothing is inserted. *)
Theorem validated_submission_saved_iff_fits
        (Store ObjectId : Type) (toLowerCase : jsstring -> jsstring)
        (insertOne : TicketInput -> Store -> Result ObjectId * Store)
        (fn ln em : jsstring) (tt q notes : JsValue) (n : JsNum) (db : Store) :
  Server.validate (mkSubmission (JStr fn) (JStr ln) (JStr em) tt q notes) = Ok ([], n) ->
  stringOrMissing notes = true ->
  post_api_tickets (Server.Ticket_create toLowerCase insertOne)
    (mkSubmission (JStr fn) (JStr ln) (JStr em) tt q notes) db
  = if fitsSchema toLowerCase fn ln em (notesText notes)
    then answerOf
           (insertOne
              (mkTicketInput (trim fn) (trim ln) (trim (toLowerCase em)) tt n
                 (trim (notesText notes))) db)
    else (mkResponse 500 (Message ObjectId (str "Error saving ticket")), db).
Proof.
  intros V Hn.
  unfold post_api_tickets, post_api_tickets_try. rewrite V.
  replace (ticketInput (mkSubmission (JStr fn) (JStr ln) (JStr em) tt q notes) n)
    with (Ok (mkTicketInput (trim fn) (trim ln) (trim em) tt n
                (trim (notesText notes))))
    by (destruct notes; try discriminate; reflexivity).
  rewrite validate_reported in V. cbn [email quantity] in V.
  rewrite emailRejected_string in V. cbn [bind] in V.
  destruct (ToNumber q) as [m |]; [| discriminate V].
  cbn [bind] in V. injection V as R ->.
  apply reported_nil in R. unfold checks in R. cbn [forallb fst] in R.
  rewrite !andb_true_iff, !negb_true_iff in R.
  destruct R as (_ & _ & Hem & Htt & Hq & _).
  apply negb_false_iff in Hem, Htt. apply emailPattern_shape in Hem.
  cbn [ticketType] in Htt.
  destruct (validString_ticketType tt Htt) as (s & -> & Vtt).
  pose proof (validNumber_quantity n Hq) as Vq.
  assert (Ne : em <> []).
  { destruct Hem as (l & d1 & d2 & -> & Nl & _). destruct l; [congruence | discriminate]. }
  unfold Server.Ticket_create, castTicket.
  cbn [in_ticketType in_firstName in_lastName in_email in_quantity in_notes].
  change (applySetters toLowerCase (path_ticketType ticketSchema) s) with s.
  rewrite Vtt, Vq.
  change (applySetters toLowerCase (path_firstName ticketSchema) (trim fn))
    with (trim (trim fn)).
  change (applySetters toLowerCase (path_lastName ticketSchema) (trim ln))
    with (trim (trim ln)).
  change (applySetters toLowerCase (path_notes ticketSchema) (trim (notesText notes)))
    with (trim (trim (notesText notes))).
  rewrite !trim_idempotent, (emailShape_trim em Hem).
  destruct em as [| c em']; [congruence |].
  change (applySetters toLowerCase (path_email ticketSchema) (c :: em'))
    with (trim (toLowerCase (c :: em'))).
  unfold validString.
  cbn [required maxlength enum path_firstName path_lastName path_email path_notes
       ticketSchema].
  unfold fitsSchema. rewrite !andb_true_r. cbn [andb].
  match goal with
  | |- context [if ?b then _ else _] =>
      replace b with (fitsSchema toLowerCase fn ln (c :: em') (notesText notes))
  end.
  - unfold fitsSchema.
    destruct (_ && _ && _ && _ : bool);
      [destruct (insertOne _ db) as [[id |] db'] |]; reflexivity.
  - unfold fitsSchema. rewrite <- !andb_assoc. reflexivity.
Qed.

(** The padded submission is inserted trimmed and lower-cased, into a
    collection that records what it is given. *)
Lemma validated_submission_saved_iff_fits_padded :
  Server.validate paddedSubmission = Ok ([], ofZ 2)
  /\ post_api_tickets (Server.Ticket_create asciiLowerCase recordingInsert)
       paddedSubmission []
     = (mkResponse 201 (Saved (str "Saved") 0%nat),
        [mkTicketInput (str "Ann") (str "Lee") (str "a@b.co") (JStr (str "VIP Pass"))
           (ofZ 2) []]).
Proof.
  assert (V : Server.validate paddedSubmission = Ok ([], ofZ 2))
    by (vm_compute; reflexivity).
  split; [exact V |].
  exact (validated_submission_saved_iff_fits (list TicketInput) nat asciiLowerCase
           recordingInsert (str " Ann ") (str "Lee") (str "A@B.CO")
           (JStr (str "VIP Pass")) (JStr (str "2")) JUndefined (ofZ 2) [] V eq_refl).
Defined.

(** ** The summary of the emails *)

Lemma trimStart_white (ws s : jsstring) :
  forallb isWhiteSpace ws = true -> trimStart (ws ++ s) = trimStart s.
Proof.
  induction ws as [| c ws IH]; simpl; [reflexivity |].
  intro H. apply andb_true_iff in H as [-> H]. apply IH, H.
Qed.

Lemma forallb_rev {A : Type} (p : A -> bool) (l : list A) :
  forallb p l = true -> forallb p (rev l) = true.
Proof.
  rewrite !forallb_forall. intros H x Hx. apply H, in_rev, Hx.
Qed.

(** White space around a text that has none at its own ends is all that
    [trim] takes away. *)
Lemma trim_padded (ws1 ws2 s : jsstring) :
  forallb isWhiteSpace ws1 = true -> forallb isWhiteSpace ws2 = true ->
  cleanEdges s -> trim (ws1 ++ s ++ ws2) = s.
Proof.
  intros W1 W2 [H1 H2]. unfold trim, trimEnd.
  rewrite (trimStart_white ws1 _ W1).
  destruct s as [| a s'].
  - simpl app.
    assert (E : trimStart ws2 = []).
    { rewrite <- (app_nil_r ws2), (trimStart_white ws2 [] W2). reflexivity. }
    rewrite E. reflexivity.
  - change ((a :: s') ++ ws2) with (a :: s' ++ ws2).
    rewrite (trimStart_fixed a (s' ++ ws2) H1).
    change (a :: s' ++ ws2) with ((a :: s') ++ ws2).
    rewrite rev_app_distr, (trimStart_white (rev ws2) _ (forallb_rev _ _ W2)).
    destruct (rev (a :: s')) as [| c r] eqn:R.
    + apply (f_equal (@rev N)) in R. rewrite rev_involutive in R. discriminate R.
    + rewrite (trimStart_fixed c r H2), <- R. apply rev_involutive.
Qed.

(** The summary of a document whose fields are texts, its quantity a number
    and its date a text that does not end in white space: six lines, without
    the line feed that opens the template and without the line feed and the
    two spaces that close it, the notes that are empty written as
    [(none)]. *)
Theorem summary_is_six_lines
        (fn ln em tt nt pre : jsstring) (c : N) (qty time : JsNum) :
  isWhiteSpace c = false ->
  TicketsRest.summary
    (Tickets.mkTicketDoc (Tickets.Date time (pre ++ [c])) (Tickets.Text fn)
       (Tickets.Text ln) (Tickets.Text em) (Tickets.Text tt) (Tickets.Num qty)
       (Tickets.Text nt))
  = Ok (str "Name: " ++ fn ++ str " " ++ ln ++ [LF]
        ++ str "Email: " ++ em ++ [LF]
        ++ str "Ticket Type: " ++ tt ++ [LF]
        ++ str "Quantity: " ++ NumberToString qty ++ [LF]
        ++ str "Notes: " ++ match nt with [] => str "(none)" | _ => nt end ++ [LF]
        ++ str "Created At: " ++ pre ++ [c])%list.
Proof.
  intro W. unfold TicketsRest.summary, TicketsRest.show.
  cbn [Tickets.createdAt Tickets.doc_firstName Tickets.doc_lastName Tickets.doc_email
       Tickets.doc_ticketType Tickets.doc_quantity Tickets.doc_notes
       Tickets.fieldValue].
  assert (Nt : ToString (TicketsRest.orElse (JStr nt) (JStr (str "(none)")))
               = Ok match nt with [] => str "(none)" | _ => nt end)
    by (destruct nt; reflexivity).
  rewrite Nt. cbn [ToString bind]. f_equal.
  set (notes := match nt with [] => str "(none)" | _ => nt end).
  replace ([LF] ++ str "Name: " ++ fn ++ str " " ++ ln ++ [LF]
           ++ str "Email: " ++ em ++ [LF]
           ++ str "Ticket Type: " ++ tt ++ [LF]
           ++ str "Quantity: " ++ NumberToString qty ++ [LF]
           ++ str "Notes: " ++ notes ++ [LF]
           ++ str "Created At: " ++ (pre ++ [c]) ++ [LF] ++ str "  ")%list
    with ([LF] ++ (str "Name: " ++ fn ++ str " " ++ ln ++ [LF]
                   ++ str "Email: " ++ em ++ [LF]
                   ++ str "Ticket Type: " ++ tt ++ [LF]
                   ++ str "Quantity: " ++ NumberToString qty ++ [LF]
                   ++ str "Notes: " ++ notes ++ [LF]
                   ++ str "Created At: " ++ pre ++ [c]) ++ [LF; 32%N; 32%N])%list
    by (rewrite <- !app_assoc; reflexivity).
  apply trim_padded; [reflexivity | reflexivity |].
  split; [reflexivity |].
  rewrite !app_assoc, rev_app_distr. exact W.
Qed.

(** The summary of the document with the awkward note. *)
Lemma summary_is_six_lines_awkward :
  TicketsRest.summary awkwardTicket
  = Ok (str "Name: Ann Lee" ++ [LF] ++ str "Email: a@b.co" ++ [LF]
        ++ str "Ticket Type: VIP Pass" ++ [LF] ++ str "Quantity: 2" ++ [LF]
        ++ str "Notes: " ++ awkwardNote ++ [LF]
        ++ str "Created At: " ++ epochText)%list.
Proof.
  exact (summary_is_six_lines (str "Ann") (str "Lee") (str "a@b.co") (str "VIP Pass")
           awkwardNote
           (str "Thu Jan 01 1970 00:00:00 GMT+0000 (Coordinated Universal Time")
           41%N (ofZ 2) (Fin 0) eq_refl).
Defined.
